(** * The rule-based answer scorer and the voice-confidence estimator

    A shallow embedding of

    - [scoreAnswer] of [supabase/functions/score-answer/index.ts], and
    - the voice-analytics block of
      [supabase/functions/analyze-answers/index.ts] (lines 101-127),

    followed by the properties the specification states about them.

    ** Modelling conventions

    - A JavaScript string is a [string]: a sequence of code units, each an
      [ascii], read as the UTF-16 code units U+0000 .. U+00FF.  On that
      range [toLowerCase], [trim] and the regular-expression class [\s] are
      modelled exactly.  Text with code units above U+00FF is outside the
      model.
    - A JavaScript number is a rational ([Q]); counts are [nat] and are
      injected with [num].  Arithmetic is exact: the rounding of IEEE
      doubles is not modelled.  Equations between numbers are stated with
      [==] ([Qeq]).
    - The arrays [strengths], [weaknesses] and [suggestions] that the source
      fills with [push] are threaded as a record of three lists.          *)

From Stdlib Require Import List String Ascii Bool Arith ZArith Lia.
From Stdlib Require Import QArith Qround Qabs Qminmax Lqa.
From Stdlib Require Import Permutation.
Import ListNotations.

Close Scope Q_scope.
Open Scope string_scope.
Open Scope nat_scope.

(* ================================================================== *)
(** * JavaScript primitives used by the two functions                  *)
(* ================================================================== *)

Module JS.

Definition code (c : ascii) : nat := nat_of_ascii c.

(** [\s] and the characters [trim] removes: TAB, LF, VT, FF, CR, SPACE
    and NO-BREAK SPACE (the members of WhiteSpace and LineTerminator
    below U+0100). *)
Definition isWhiteSpace (c : ascii) : bool :=
  let n := code c in
  ((9 <=? n) && (n <=? 13)) || (n =? 32) || (n =? 160).

(** Unicode simple lower-casing below U+0100: A-Z, and the Latin-1
    capitals U+00C0 .. U+00DE except the multiplication sign U+00D7. *)
Definition toLowerUnit (c : ascii) : ascii :=
  let n := code c in
  if ((65 <=? n) && (n <=? 90))
     || ((192 <=? n) && (n <=? 222) && negb (n =? 215))
  then ascii_of_nat (n + 32)
  else c.

(** [s.toLowerCase()] *)
Fixpoint toLowerCase (s : string) : string :=
  match s with
  | EmptyString => EmptyString
  | String c s' => String (toLowerUnit c) (toLowerCase s')
  end.

Fixpoint trimStart (s : string) : string :=
  match s with
  | EmptyString => EmptyString
  | String c s' => if isWhiteSpace c then trimStart s' else s
  end.

Fixpoint trimEnd (s : string) : string :=
  match s with
  | EmptyString => EmptyString
  | String c s' =>
      match trimEnd s' with
      | EmptyString =>
          if isWhiteSpace c then EmptyString else String c EmptyString
      | t => String c t
      end
  end.

(** [s.trim()] *)
Definition trim (s : string) : string := trimEnd (trimStart s).

(** [needle] is a prefix of [s]. *)
Fixpoint startsWith (s needle : string) : bool :=
  match needle, s with
  | EmptyString, _ => true
  | String _ _, EmptyString => false
  | String a needle', String b s' =>
      Ascii.eqb a b && startsWith s' needle'
  end.

(** [s.includes(needle)]: [needle] occurs in [s] as a substring; the
    empty needle occurs in every string. *)
Fixpoint includes (s needle : string) : bool :=
  startsWith s needle
  || match s with
     | EmptyString => false
     | String _ s' => includes s' needle
     end.

(** [s.split(re)] for a regular expression [re] of the shape [[...]+]
    (one or more characters of a class [cls]): the fragments between the
    maximal runs of class characters.  A run at the start or at the end
    of [s] leaves an empty fragment there, and the empty string splits
    into one empty fragment.  [inRun] tells that the previous character
    belonged to a run; [cur] is the fragment being read. *)
Fixpoint splitRunsFrom (cls : ascii -> bool) (inRun : bool) (cur s : string)
  : list string :=
  match s with
  | EmptyString => [cur]
  | String c s' =>
      if cls c then
        if inRun then splitRunsFrom cls true EmptyString s'
        else cur :: splitRunsFrom cls true EmptyString s'
      else splitRunsFrom cls false (cur ++ String c EmptyString)%string s'
  end.

Definition splitRuns (cls : ascii -> bool) (s : string) : list string :=
  splitRunsFrom cls false EmptyString s.

(** [s.split(sep)] for a string separator: [s] is scanned from the left
    and cut at each occurrence of [sep] that starts after the previous
    one has ended.  [skip] counts the characters of a matched separator
    that are still to be passed over.  With the empty separator the
    result is the list of the code units of [s]. *)
Fixpoint splitFrom (sep : string) (skip : nat) (cur s : string)
  : list string :=
  match s with
  | EmptyString => [cur]
  | String c s' =>
      match skip with
      | S k => splitFrom sep k cur s'
      | O =>
          if startsWith s sep
          then cur :: splitFrom sep (String.length sep - 1) EmptyString s'
          else splitFrom sep 0 (cur ++ String c EmptyString)%string s'
      end
  end.

Fixpoint units (s : string) : list string :=
  match s with
  | EmptyString => []
  | String c s' => String c EmptyString :: units s'
  end.

Definition split (s sep : string) : list string :=
  match sep with
  | EmptyString => units s
  | _ => splitFrom sep 0 EmptyString s
  end.

(** [s.replace(re, '')] for a global regular expression [re] that is one
    character class [cls]: every class character is removed. *)
Fixpoint removeAll (cls : ascii -> bool) (s : string) : string :=
  match s with
  | EmptyString => EmptyString
  | String c s' =>
      if cls c then removeAll cls s' else String c (removeAll cls s')
  end.

(** A count as a number. *)
Definition num (n : nat) : Q := inject_Z (Z.of_nat n).

(** [Math.round(x)]: the integer nearest to [x], halves rounded up. *)
Definition round (x : Q) : Z := Qfloor (x + 0.5)%Q.

(** Comparisons of numbers as booleans. *)
Definition ltb (x y : Q) : bool := negb (Qle_bool y x).
Definition leb (x y : Q) : bool := Qle_bool x y.
Definition gtb (x y : Q) : bool := ltb y x.
Definition geb (x y : Q) : bool := leb y x.

End JS.

(* ================================================================== *)
(** * [scoreAnswer] (score-answer/index.ts, lines 10-156)              *)
(* ================================================================== *)

Module ScoreAnswer.
Import JS.

(** The value [scoreAnswer] returns. *)
Record Feedback : Type := mkFeedback {
  score : Q;
  technical_accuracy : Q;
  clarity : Q;
  structure : Q;
  strengths : list string;
  weaknesses : list string;
  suggestions : list string
}.

(** The three arrays while they are being filled. *)
Record Arrays : Type := mkArrays {
  strengthsArr : list string;
  weaknessesArr : list string;
  suggestionsArr : list string
}.

Definition pushStrength (x : string) (a : Arrays) : Arrays :=
  mkArrays (strengthsArr a ++ [x]) (weaknessesArr a) (suggestionsArr a).
Definition pushWeakness (x : string) (a : Arrays) : Arrays :=
  mkArrays (strengthsArr a) (weaknessesArr a ++ [x]) (suggestionsArr a).
Definition pushSuggestion (x : string) (a : Arrays) : Arrays :=
  mkArrays (strengthsArr a) (weaknessesArr a) (suggestionsArr a ++ [x]).

Definition nonEmpty (s : string) : bool := 0 <? String.length s.

(** The class [[.!?]] of the sentence splitter. *)
Definition isSentenceEnd (c : ascii) : bool :=
  Ascii.eqb c "." || Ascii.eqb c "!" || Ascii.eqb c "?".

(** Lines 23-26. *)
Definition answer (answerText : string) : string :=
  trim (toLowerCase answerText).

Definition words (answerText : string) : list string :=
  filter nonEmpty (splitRuns isWhiteSpace (answer answerText)).

Definition wordCount (answerText : string) : nat :=
  List.length (words answerText).

Definition sentences (answerText : string) : list string :=
  filter (fun s => nonEmpty (trim s))
         (splitRuns isSentenceEnd (answer answerText)).

(** ** 1. Keyword matching (lines 29-35) *)

Definition matchedKeywords (answerText : string)
    (expectedKeywords : list string) : list string :=
  filter (fun kw => includes (answer answerText) (toLowerCase kw))
         expectedKeywords.

Definition keywordRatio (answerText : string)
    (expectedKeywords : list string) : Q :=
  if 0 <? List.length expectedKeywords
  then (num (List.length (matchedKeywords answerText expectedKeywords))
        / num (List.length expectedKeywords))%Q
  else 0%Q.

Definition keywordScore (answerText : string)
    (expectedKeywords : list string) : Q :=
  (keywordRatio answerText expectedKeywords * 10)%Q.

(** ** 2. Length (lines 39-48) *)

Definition lengthScore (answerText : string) (idealLength : Q) : Q :=
  let wc := num (wordCount answerText) in
  if ltb wc (idealLength * 0.5)%Q then
    ((wc / (idealLength * 0.5)) * 6)%Q
  else if gtb wc (idealLength * 2)%Q then
    7%Q
  else if geb wc (idealLength * 0.8)%Q && leb wc (idealLength * 1.5)%Q then
    10%Q
  else
    8%Q.

(** ** 3. Structure (lines 52-68) *)

(** The second list marker of line 59 is a three-unit string whose middle
    unit is U+20AC.  No string of units below U+0100 contains it. *)
Definition includesBulletMarker (s : string) : bool := false.

Definition transitionWords : list string :=
  ["first"; "second"; "then"; "next"; "finally"; "however"; "therefore";
   "because"; "for example"].

Definition hasTransitions (answerText : string) : bool :=
  existsb (fun tw => includes (answer answerText) tw) transitionWords.

Definition structureScore (answerText : string) : Q :=
  let a := answer answerText in
  let n := List.length (sentences answerText) in
  let s0 := 5%Q in
  let s1 := if 3 <=? n then (s0 + 2)%Q
            else if 2 <=? n then (s0 + 1)%Q
            else s0 in
  let s2 := if includes a "-" || includesBulletMarker a || includes a "1."
            then (s1 + 2)%Q else s1 in
  let s3 := if hasTransitions answerText then (s2 + 1)%Q else s2 in
  Qmin 10 s3.

(** ** 4. Clarity (lines 72-91) *)

Definition avgSentenceLength (answerText : string) : Q :=
  if 0 <? List.length (sentences answerText)
  then (num (wordCount answerText)
        / num (List.length (sentences answerText)))%Q
  else num (wordCount answerText).

Definition fillerWords : list string :=
  ["um"; "uh"; "like"; "you know"; "basically"; "actually"].

(** [answer.split(fw).length - 1].  For a non-empty [fw] the split has at
    least one fragment, so the subtraction stays in the naturals. *)
Definition occurrences (fw s : string) : nat :=
  List.length (split s fw) - 1.

(** [fillerWords.reduce((count, fw) => count + ..., 0)] *)
Definition fillerCount (answerText : string) : nat :=
  fold_left (fun count fw => count + occurrences fw (answer answerText))
            fillerWords 0.

(** Lines 76-80: the adjustment for the average sentence length. *)
Definition sentenceLengthStep (avg : Q) (c : Q) : Q :=
  if geb avg 10 && leb avg 30 then (c + 2)%Q
  else if ltb avg 10 then (c + 1)%Q
  else c.

(** Lines 88-89: the adjustment for the filler words. *)
Definition fillerStep (fillers : nat) (c : Q) : Q :=
  if fillers =? 0 then (c + 1)%Q
  else if 5 <? fillers then (c - 2)%Q
  else c.

(** Lines 72-91, from the two quantities they read. *)
Definition clarityFrom (avg : Q) (fillers : nat) : Q :=
  Qmax 0 (Qmin 10 (fillerStep fillers (sentenceLengthStep avg 7))).

Definition clarityScore (answerText : string) : Q :=
  clarityFrom (avgSentenceLength answerText) (fillerCount answerText).

(** ** Weighted total (lines 94-99) *)

Definition weighted (keywordScore lengthScore structureScore clarityScore : Q)
  : Q :=
  (keywordScore * 0.4 + lengthScore * 0.2 + structureScore * 0.2
   + clarityScore * 0.2)%Q.

Definition totalScore (answerText : string) (expectedKeywords : list string)
    (idealLength : Q) : Q :=
  weighted (keywordScore answerText expectedKeywords)
           (lengthScore answerText idealLength)
           (structureScore answerText)
           (clarityScore answerText).

(** ** Feedback (lines 102-145)

    Each block reads local values computed above; they are its
    arguments here. *)

Definition msgCoveredMost := "Covered most of the key technical concepts".
Definition msgSomeMissing := "Some important concepts were missing".
Definition msgManyMissing := "Many key concepts were not addressed".
Definition msgReview :=
  "Review the fundamental concepts related to this topic".
Definition msgTooBrief := "Answer was too brief".
Definition msgMoreDetail :=
  "Provide more detail and examples in your response".
Definition msgGoodLength := "Good answer length with appropriate detail".
Definition msgTooLong := "Answer was longer than necessary".
Definition msgConcise :=
  "Try to be more concise while covering key points".
Definition msgWellStructured :=
  "Well-structured response with clear organization".
Definition msgOrganize := "Answer could be better organized".
Definition msgApproach :=
  "Use a structured approach: introduce the concept, explain details, give examples".
Definition msgClear := "Clear and easy to understand explanation".
Definition msgFillers := "Too many filler words detected".
Definition msgPractice :=
  "Practice speaking more directly without filler words".

(** [xs.join(sep)] *)
Definition join (sep : string) (xs : list string) : string :=
  String.concat sep xs.

(** Lines 107-118. *)
Definition keywordFeedback (answerText : string)
    (expectedKeywords : list string) (keywordRatio : Q) (a : Arrays)
  : Arrays :=
  if geb keywordRatio 0.7 then
    pushStrength msgCoveredMost a
  else if geb keywordRatio 0.4 then
    let a1 := pushWeakness msgSomeMissing a in
    let missingKeywords :=
      filter (fun kw => negb (includes (answer answerText) (toLowerCase kw)))
             expectedKeywords in
    if (0 <? List.length missingKeywords)
       && (List.length missingKeywords <=? 3)
    then pushSuggestion
           ("Consider discussing: " ++ join ", " (firstn 3 missingKeywords))
           a1
    else a1
  else
    pushSuggestion msgReview (pushWeakness msgManyMissing a).

(** Lines 121-129. *)
Definition lengthFeedback (wordCount : nat) (idealLength : Q) (a : Arrays)
  : Arrays :=
  let wc := num wordCount in
  if ltb wc (idealLength * 0.5)%Q then
    pushSuggestion msgMoreDetail (pushWeakness msgTooBrief a)
  else if geb wc (idealLength * 0.8)%Q && leb wc (idealLength * 1.5)%Q then
    pushStrength msgGoodLength a
  else if gtb wc (idealLength * 2)%Q then
    pushSuggestion msgConcise (pushWeakness msgTooLong a)
  else a.

(** Lines 132-137. *)
Definition structureFeedback (structureScore : Q) (a : Arrays) : Arrays :=
  if geb structureScore 8 then
    pushStrength msgWellStructured a
  else if ltb structureScore 6 then
    pushSuggestion msgApproach (pushWeakness msgOrganize a)
  else a.

(** Lines 140-145. *)
Definition clarityFeedback (clarityScore : Q) (fillerCount : nat)
    (a : Arrays) : Arrays :=
  if geb clarityScore 8 then
    pushStrength msgClear a
  else if 3 <? fillerCount then
    pushSuggestion msgPractice (pushWeakness msgFillers a)
  else a.

(** [Math.round(x * 10) / 10] *)
Definition round1 (x : Q) : Q := (inject_Z (round (x * 10)) / 10)%Q.

(** Lines 94-155, from the values of the four dimensions. *)
Definition report (answerText : string) (expectedKeywords : list string)
    (idealLength : Q)
    (keywordRatio lengthScore structureScore clarityScore : Q) : Feedback :=
  let keywordScore := (keywordRatio * 10)%Q in
  let totalScore :=
    weighted keywordScore lengthScore structureScore clarityScore in
  let arrays :=
    clarityFeedback clarityScore (fillerCount answerText)
      (structureFeedback structureScore
         (lengthFeedback (wordCount answerText) idealLength
            (keywordFeedback answerText expectedKeywords keywordRatio
               (mkArrays [] [] [])))) in
  {| score := round1 totalScore;
     technical_accuracy := round1 keywordScore;
     clarity := round1 clarityScore;
     structure := round1 structureScore;
     strengths := strengthsArr arrays;
     weaknesses := weaknessesArr arrays;
     suggestions := suggestionsArr arrays |}.

Definition scoreAnswer (answerText : string)
    (expectedKeywords : list string) (idealLength : Q) : Feedback :=
  report answerText expectedKeywords idealLength
         (keywordRatio answerText expectedKeywords)
         (lengthScore answerText idealLength)
         (structureScore answerText)
         (clarityScore answerText).

End ScoreAnswer.

(* ================================================================== *)
(** * [scoreAnswer] with checked division                              *)
(* ================================================================== *)

(** The same function with every [/] replaced by a division that reports
    a zero divisor.  It is used to show that the guards of the source keep
    every divisor away from zero. *)

Module Guarded.
Import JS.

Inductive result (A : Type) : Type :=
| Ok (a : A)
| DivisionByZero.
Arguments Ok {A} a.
Arguments DivisionByZero {A}.

Definition bind {A B : Type} (r : result A) (k : A -> result B) : result B :=
  match r with
  | Ok a => k a
  | DivisionByZero => DivisionByZero
  end.

Notation "x <- r ;; k" := (bind r (fun x => k))
  (at level 61, r at next level, right associativity).

Definition divide (x y : Q) : result Q :=
  if Qeq_bool y 0 then DivisionByZero else Ok (x / y)%Q.

Definition keywordRatio (answerText : string)
    (expectedKeywords : list string) : result Q :=
  if 0 <? List.length expectedKeywords
  then divide
         (num (List.length
                 (ScoreAnswer.matchedKeywords answerText expectedKeywords)))
         (num (List.length expectedKeywords))
  else Ok 0%Q.

Definition lengthScore (answerText : string) (idealLength : Q) : result Q :=
  let wc := num (ScoreAnswer.wordCount answerText) in
  if ltb wc (idealLength * 0.5)%Q then
    q <- divide wc (idealLength * 0.5)%Q ;;
    Ok (q * 6)%Q
  else if gtb wc (idealLength * 2)%Q then
    Ok 7%Q
  else if geb wc (idealLength * 0.8)%Q && leb wc (idealLength * 1.5)%Q then
    Ok 10%Q
  else
    Ok 8%Q.

Definition avgSentenceLength (answerText : string) : result Q :=
  if 0 <? List.length (ScoreAnswer.sentences answerText)
  then divide (num (ScoreAnswer.wordCount answerText))
              (num (List.length (ScoreAnswer.sentences answerText)))
  else Ok (num (ScoreAnswer.wordCount answerText)).

Definition scoreAnswer (answerText : string)
    (expectedKeywords : list string) (idealLength : Q)
  : result ScoreAnswer.Feedback :=
  keywordRatio <- keywordRatio answerText expectedKeywords ;;
  lengthScore <- lengthScore answerText idealLength ;;
  let structureScore := ScoreAnswer.structureScore answerText in
  avgSentenceLength <- avgSentenceLength answerText ;;
  let clarityScore :=
    ScoreAnswer.clarityFrom avgSentenceLength
                            (ScoreAnswer.fillerCount answerText) in
  Ok (ScoreAnswer.report answerText expectedKeywords idealLength
                         keywordRatio lengthScore structureScore
                         clarityScore).

End Guarded.

(* ================================================================== *)
(** * Voice analytics (analyze-answers/index.ts, lines 101-127)        *)
(* ================================================================== *)

Module AnalyzeAnswers.
Import JS.

(** The three values written to the answer row (lines 135-137). *)
Record VoiceMetrics : Type := mkVoiceMetrics {
  confidence_score : Z;
  words_per_minute : nat;
  filler_word_count : nat
}.

(** [transcript.split(/\s+/).filter(Boolean)] *)
Definition words (transcript : string) : list string :=
  filter (fun w => 0 <? String.length w) (splitRuns isWhiteSpace transcript).

Definition wordCount (transcript : string) : nat :=
  List.length (words transcript).

Definition wordsPerMinute (transcript : string) : nat :=
  wordCount transcript * 2.

Definition fillerWords : list string :=
  ["um"; "uh"; "like"; "you know"; "basically"; "actually"; "literally";
   "so"; "well"].

(** The class [[.,!?]] of line 116. *)
Definition isPunctuation (c : ascii) : bool :=
  Ascii.eqb c "." || Ascii.eqb c "," || Ascii.eqb c "!" || Ascii.eqb c "?".

(** [xs.includes(x)] on an array of strings. *)
Definition arrayIncludes (xs : list string) (x : string) : bool :=
  existsb (String.eqb x) xs.

(** The predicate of the [filter] of lines 115-117. *)
Definition isFillerToken (w : string) : bool :=
  arrayIncludes fillerWords (removeAll isPunctuation (toLowerCase w)).

Definition fillerWordCount (transcript : string) : nat :=
  List.length (filter isFillerToken (words transcript)).

Definition rateScore (transcript : string) : Q :=
  Qmax 0 (100 - Qabs (num (wordsPerMinute transcript) - 135) * 0.5)%Q.

Definition fillerRatio (transcript : string) : Q :=
  (num (fillerWordCount transcript)
   / num (Nat.max (wordCount transcript) 1))%Q.

Definition fillerScore (transcript : string) : Q :=
  Qmax 0 (100 - fillerRatio transcript * 500)%Q.

(** Line 126; [clarity] is [feedback.clarity]. *)
Definition confidenceScore (transcript : string) (clarity : Q) : Z :=
  round (rateScore transcript * 0.4 + fillerScore transcript * 0.3
         + clarity * 10 * 0.3)%Q.

(** Lines 102-127.  [answer.transcript] is a string or [null]; the block
    under [if (answer.transcript)] runs for a non-empty string. *)
Definition voiceAnalytics (transcript : option string) (clarity : Q)
  : VoiceMetrics :=
  match transcript with
  | Some t =>
      if 0 <? String.length t then
        {| confidence_score := confidenceScore t clarity;
           words_per_minute := wordsPerMinute t;
           filler_word_count := fillerWordCount t |}
      else mkVoiceMetrics 70 0 0
  | None => mkVoiceMetrics 70 0 0
  end.

End AnalyzeAnswers.

(* ================================================================== *)
(** * The filler count as the specification words it                   *)
(* ================================================================== *)

Module FillerReading.
Import JS.

(** Some code unit of [s] belongs to the class [cls]. *)
Fixpoint anyUnit (cls : ascii -> bool) (s : string) : bool :=
  match s with
  | EmptyString => false
  | String c s' => cls c || anyUnit cls s'
  end.

(** Every code unit of [s] belongs to the class [cls]. *)
Fixpoint allUnits (cls : ascii -> bool) (s : string) : bool :=
  match s with
  | EmptyString => true
  | String c s' => cls c && allUnits cls s'
  end.

(** [s] without the class characters at its end. *)
Fixpoint stripTrailing (cls : ascii -> bool) (s : string) : string :=
  match s with
  | EmptyString => EmptyString
  | String c s' =>
      match stripTrailing cls s' with
      | EmptyString => if cls c then EmptyString else String c EmptyString
      | t => String c t
      end
  end.

(** The count in the words of the specification: the tokens that, after
    stripping trailing punctuation, are equal (case-insensitively) to one
    of the nine fillers. *)
Definition trailingStripCount (transcript : string) : nat :=
  List.length
    (filter (fun w => AnalyzeAnswers.arrayIncludes
                        AnalyzeAnswers.fillerWords
                        (stripTrailing AnalyzeAnswers.isPunctuation
                                       (toLowerCase w)))
            (AnalyzeAnswers.words transcript)).

(** The fillers of the table that are one word. *)
Definition oneWordFillers : list string :=
  ["um"; "uh"; "like"; "basically"; "actually"; "literally"; "so"; "well"].

(** The punctuation marks of [w], if any, are all at its end. *)
Fixpoint punctuationOnlyAtEnd (w : string) : bool :=
  match w with
  | EmptyString => true
  | String c w' =>
      if AnalyzeAnswers.isPunctuation c
      then allUnits AnalyzeAnswers.isPunctuation w'
      else punctuationOnlyAtEnd w'
  end.

End FillerReading.

(* ================================================================== *)
(** * Inputs of the scenarios of the specification                     *)
(* ================================================================== *)

Module Scenario.

(** The binary-search answer, its rubric keywords and ideal length. *)
Definition binarySearchAnswer : string :=
  "Binary search works by repeatedly dividing the sorted array in half. First compare the middle element, then recurse into the correct half. For example, searching for 7 in [1,3,5,7,9] takes log2(5) steps.".

Definition binarySearchKeywords : list string :=
  ["binary search"; "divide"; "sorted"; "logarithmic"].

Definition binarySearchIdeal : Q := 40%Q.

(** A transcript of 67 words, three of which are fillers
    ([um], [like], [well]). *)
Definition transcript67 : string :=
  "um I think that the binary search like algorithm works well by cutting the range in two halves each time it looks at the middle element of the sorted array and then it goes on with the left half or the right half until the element is found or the range is empty which takes a logarithmic number of steps in the size of the array okay".

(** The same transcript with its last word replaced by the token [u.m]:
    67 words, the same three fillers, and a full stop inside a token. *)
Definition transcript67InnerMark : string :=
  "um I think that the binary search like algorithm works well by cutting the range in two halves each time it looks at the middle element of the sorted array and then it goes on with the left half or the right half until the element is found or the range is empty which takes a logarithmic number of steps in the size of the array u.m".

(** An answer with six occurrences of [um], and the same answer without
    them. *)
Definition answerWithUm : string :=
  "Um, a stack is, um, a list where, um, you push and, um, pop at, um, one end, um, only.".

Definition answerWithoutUm : string :=
  "A stack is a list where you push and pop at one end only.".

End Scenario.

(* ================================================================== *)
(** * The handler of score-answer (index.ts, lines 208-246)            *)
(* ================================================================== *)

(** The handler reads the interview with its questions and answers, looks
    every question up in the question bank, scores the first answer of
    each question and writes the feedback back.  The rows it reads are its
    input here, the look-up in [question_bank] is a function from the
    question text to the row found, if any, and the rows it writes are
    collected in the order of the writes. *)

Module ScoreHandler.
Import JS.

(** A row of [interview_answers], as far as the handler reads it. *)
Record AnswerRow : Type := mkAnswerRow {
  id : string;
  answer_text : option string;
  transcript : option string
}.

(** A row of [interview_questions] with its embedded answers. *)
Record QuestionRow : Type := mkQuestionRow {
  question_text : string;
  interview_answers : list AnswerRow
}.

(** A row of [question_bank], as far as the handler reads it. *)
Record BankRow : Type := mkBankRow {
  expected_keywords : list string;
  ideal_answer_length : Z
}.

(** [answer.answer_text || answer.transcript || ''] *)
Definition answerTextOf (a : AnswerRow) : string :=
  match answer_text a with
  | Some t => if 0 <? String.length t then t
              else match transcript a with
                   | Some u => u
                   | None => EmptyString
                   end
  | None => match transcript a with
            | Some u => u
            | None => EmptyString
            end
  end.

(** [bankQuestion?.expected_keywords || []] *)
Definition expectedKeywordsOf (bankQuestion : option BankRow) : list string :=
  match bankQuestion with
  | Some b => expected_keywords b
  | None => []
  end.

(** [bankQuestion?.ideal_answer_length || 100]: a missing row and the
    length 0 both give 100. *)
Definition idealLengthOf (bankQuestion : option BankRow) : Z :=
  match bankQuestion with
  | Some b => if (ideal_answer_length b =? 0)%Z then 100%Z
              else ideal_answer_length b
  | None => 100%Z
  end.

(** The two counters of the loop and the updates of [interview_answers]
    made so far: the id of the answer row and the feedback stored in it
    (its [score] goes to [ai_score]). *)
Record Loop : Type := mkLoop {
  totalScore : Q;
  answeredCount : nat;
  updates : list (string * ScoreAnswer.Feedback)
}.

(** One turn of the loop of lines 212-243. *)
Definition scoreQuestion (question_bank : string -> option BankRow)
    (st : Loop) (question : QuestionRow) : Loop :=
  match interview_answers question with
  | [] => st
  | answer :: _ =>
      let answerText := answerTextOf answer in
      if 0 <? String.length (trim answerText) then
        let bankQuestion := question_bank (question_text question) in
        let feedback :=
          ScoreAnswer.scoreAnswer answerText
            (expectedKeywordsOf bankQuestion)
            (inject_Z (idealLengthOf bankQuestion)) in
        {| totalScore := (totalScore st + ScoreAnswer.score feedback)%Q;
           answeredCount := answeredCount st + 1;
           updates := updates st ++ [(id answer, feedback)] |}
      else st
  end.

Definition scoreQuestions (question_bank : string -> option BankRow)
    (questions : list QuestionRow) : Loop :=
  fold_left (scoreQuestion question_bank) questions (mkLoop 0%Q 0 []).

(** Line 246. *)
Definition overallScore (st : Loop) : Q :=
  if 0 <? answeredCount st
  then (totalScore st / num (answeredCount st))%Q
  else 0%Q.

End ScoreHandler.

(* ================================================================== *)
(** * Score colour and label (InterviewResults.tsx, lines 108-121)     *)
(* ================================================================== *)

Module ResultsPage.
Import JS.

Definition getScoreColor (score : Q) : string :=
  if geb score 8 then "text-green-500"
  else if geb score 6 then "text-yellow-500"
  else "text-red-500".

Definition getScoreLabel (score : Q) : string :=
  if geb score 9 then "Excellent"
  else if geb score 8 then "Very Good"
  else if geb score 7 then "Good"
  else if geb score 6 then "Satisfactory"
  else if geb score 5 then "Needs Improvement"
  else "Poor".

End ResultsPage.

(* ================================================================== *)
(** * The handler of start-interview (lines 66-142)                    *)
(* ================================================================== *)

(** The handler picks up to five questions of the bank for the role and
    the difficulty asked for, preferring questions the user has not had.
    The bank and the progress row of the user are its input here, and the
    progress row after its updates is part of its result.  The order in
    which [sort(() => Math.random() - 0.5)] leaves the array is the
    argument [shuffle].  Whether the database reports an error for the
    query of the questions (line 75) and for the insert of the selected
    questions (line 116) are the arguments [questionsError] and
    [insertError]; the handler throws on either and answers with the
    status 500.  The results of the two updates of the progress row are
    not looked at by the handler. *)

Module StartInterview.
Import JS.

(** A row of [question_bank], as far as the handler reads it. *)
Record BankQuestion : Type := mkBankQuestion {
  id : string;
  role : string;
  difficulty : string;
  question_text : string
}.

(** The row of [user_progress]: [used_question_ids || []] and
    [total_interviews || 0]. *)
Record Progress : Type := mkProgress {
  used_question_ids : list string;
  total_interviews : Z
}.

(** A row inserted into [interview_questions]. *)
Record InterviewQuestion : Type := mkInterviewQuestion {
  interview_id : string;
  question_number : nat;
  text : string
}.

(** An entry of the [questions] array of the response. *)
Record Selected : Type := mkSelected {
  number : nat;
  question : string;
  questionBankId : string
}.

Inductive Response : Type :=
| NoQuestionsAvailable
| Success (questions : list Selected)
| ServerError.

Record Outcome : Type := mkOutcome {
  response : Response;
  progress : Progress;
  inserted : list InterviewQuestion
}.

(** [xs.includes(x)] on an array of strings. *)
Definition arrayIncludes (xs : list string) (x : string) : bool :=
  existsb (String.eqb x) xs.

(** The query of lines 69-73: the rows with the role and the difficulty. *)
Definition allQuestions (bank : list BankQuestion) (forRole forDifficulty : string)
  : list BankQuestion :=
  filter (fun q => String.eqb (role q) forRole
                   && String.eqb (difficulty q) forDifficulty)
         bank.

(** [xs.map((q, index) => f(index + 1, q))] *)
Definition mapNumbered {A B : Type} (f : nat -> A -> B) (xs : list A)
  : list B :=
  map (fun p => f (fst p) (snd p)) (combine (seq 1 (List.length xs)) xs).

Definition startInterview
    (shuffle : list BankQuestion -> list BankQuestion)
    (questionsError insertError : bool)
    (bank : list BankQuestion) (row : Progress)
    (forRole forDifficulty interviewId : string) : Outcome :=
  let usedQuestionIds := used_question_ids row in
  (* line 75: [if (questionsError) throw questionsError] *)
  if questionsError then mkOutcome ServerError row [] else
  let allQuestions := allQuestions bank forRole forDifficulty in
  let availableQuestions :=
    filter (fun q => negb (arrayIncludes usedQuestionIds (id q)))
           allQuestions in
  (* lines 81-92: fewer than five left, start over with all of them *)
  let reset := List.length availableQuestions <? 5 in
  let rowAfterReset :=
    if reset then
      let usedForRoleDifficulty := map id allQuestions in
      let newUsedIds :=
        filter (fun i => negb (arrayIncludes usedForRoleDifficulty i))
               usedQuestionIds in
      mkProgress newUsedIds (total_interviews row)
    else row in
  let availableQuestions :=
    if reset then allQuestions else availableQuestions in
  let shuffled := shuffle availableQuestions in
  let selectedQuestions := firstn 5 shuffled in
  match selectedQuestions with
  | [] => mkOutcome NoQuestionsAvailable rowAfterReset []
  | _ :: _ =>
      let questionsToInsert :=
        mapNumbered
          (fun n q => mkInterviewQuestion interviewId n (question_text q))
          selectedQuestions in
      (* line 116: [if (insertError) throw insertError] *)
      if insertError then mkOutcome ServerError rowAfterReset [] else
      let newUsedIds := (usedQuestionIds ++ map id selectedQuestions)%list in
      mkOutcome
        (Success
           (mapNumbered (fun n q => mkSelected n (question_text q) (id q))
                        selectedQuestions))
        (mkProgress newUsedIds (total_interviews row + 1)%Z)
        questionsToInsert
  end.

End StartInterview.

(** A small bank and a progress row to run [startInterview] on. *)

Module StartScenario.
Import StartInterview.

Definition bank : list BankQuestion :=
  [mkBankQuestion "q1" "sde" "easy" "What is a stack?";
   mkBankQuestion "q2" "sde" "easy" "What is a queue?";
   mkBankQuestion "d1" "data_engineer" "easy" "What is ETL?";
   mkBankQuestion "q3" "sde" "easy" "What is a hash map?";
   mkBankQuestion "q4" "sde" "easy" "What is recursion?";
   mkBankQuestion "q5" "sde" "easy" "What is a linked list?";
   mkBankQuestion "q6" "sde" "easy" "What is binary search?"].

Definition row : Progress := mkProgress ["q1"; "d1"] 3.

(** The arrangement used for the runs: the array reversed. *)
Definition reversed (l : list BankQuestion) : list BankQuestion := rev l.

End StartScenario.

(* ================================================================== *)
(** * Numbers: comparisons, rounding, counts                           *)
(* ================================================================== *)

Section NumberFacts.
Import JS.
Local Open Scope Q_scope.

Lemma leb_true (x y : Q) : leb x y = true <-> x <= y.
Proof. unfold leb. apply Qle_bool_iff. Qed.

Lemma leb_false (x y : Q) : leb x y = false <-> y < x.
Proof.
  unfold leb. split; intro H.
  - apply Qnot_le_lt. intro L. apply Qle_bool_iff in L. congruence.
  - destruct (Qle_bool x y) eqn:E; [|reflexivity].
    apply Qle_bool_iff in E. exfalso. apply (Qlt_not_le _ _ H E).
Qed.

Lemma ltb_true (x y : Q) : ltb x y = true <-> x < y.
Proof.
  unfold ltb. rewrite negb_true_iff. apply (leb_false y x).
Qed.

Lemma ltb_false (x y : Q) : ltb x y = false <-> y <= x.
Proof.
  unfold ltb. rewrite negb_false_iff. apply (leb_true y x).
Qed.

Lemma geb_true (x y : Q) : geb x y = true <-> y <= x.
Proof. apply leb_true. Qed.

Lemma geb_false (x y : Q) : geb x y = false <-> x < y.
Proof. apply leb_false. Qed.

Lemma gtb_true (x y : Q) : gtb x y = true <-> y < x.
Proof. apply ltb_true. Qed.

Lemma gtb_false (x y : Q) : gtb x y = false <-> x <= y.
Proof. apply ltb_false. Qed.

Lemma num_nonneg (n : nat) : 0 <= num n.
Proof.
  unfold num. change 0 with (inject_Z 0). rewrite <- Zle_Qle. lia.
Qed.

Lemma num_le (m n : nat) : (m <= n)%nat -> num m <= num n.
Proof. intro H. unfold num. rewrite <- Zle_Qle. lia. Qed.

Lemma num_pos (n : nat) : (0 < n)%nat -> 0 < num n.
Proof.
  intro H. unfold num. change 0 with (inject_Z 0). rewrite <- Zlt_Qlt. lia.
Qed.

(** A quotient of a smaller count by a larger, positive one. *)
Lemma ratio_bounds (m n : nat) :
  (m <= n)%nat -> (0 < n)%nat -> 0 <= num m / num n <= 1.
Proof.
  intros Hmn Hn. pose proof (num_pos n Hn) as Hp.
  pose proof (num_nonneg m) as Hm. pose proof (num_le m n Hmn) as Hle.
  split.
  - apply Qle_shift_div_l; [assumption | lra].
  - apply Qle_shift_div_r; [assumption | lra].
Qed.

Lemma ratio_mono (m1 m2 n : nat) :
  (m1 <= m2)%nat -> (0 < n)%nat -> num m1 / num n <= num m2 / num n.
Proof.
  intros Hm Hn. pose proof (num_pos n Hn) as Hp.
  pose proof (num_le m1 m2 Hm) as Hle.
  unfold Qdiv. apply Qmult_le_compat_r; [assumption|].
  apply Qlt_le_weak, Qinv_lt_0_compat, Hp.
Qed.

Lemma round_mono (x y : Q) : x <= y -> (round x <= round y)%Z.
Proof. intro H. unfold round. apply Qfloor_resp_le. lra. Qed.

Lemma round_Z (z : Z) : round (inject_Z z) = z.
Proof.
  unfold round.
  assert (L : (z <= Qfloor (inject_Z z + 0.5))%Z).
  { rewrite <- (Qfloor_Z z) at 1. apply Qfloor_resp_le. lra. }
  assert (U : (Qfloor (inject_Z z + 0.5) < z + 1)%Z).
  { rewrite Zlt_Qlt. pose proof (Qfloor_le (inject_Z z + 0.5)) as F.
    rewrite inject_Z_plus. change (inject_Z 1) with 1. lra. }
  lia.
Qed.

End NumberFacts.

Import ScoreAnswer.

(* ================================================================== *)
(** * Ranges of the four dimensions                                    *)
(* ================================================================== *)

(** Case analysis on one boolean comparison of numbers, turning it into
    the order fact it decides. *)
Ltac cmp_cases b :=
  let E := fresh "E" in
  destruct b eqn:E;
  [ first [ apply ltb_true in E | apply leb_true in E
          | apply geb_true in E | apply gtb_true in E ]
  | first [ apply ltb_false in E | apply leb_false in E
          | apply geb_false in E | apply gtb_false in E ] ].

(** Case analysis on every [Qmin] and [Qmax] in sight; each is then an
    unknown constrained by the branch of its specification. *)
Ltac minmax_step t spec :=
  let x := fresh "m" in
  destruct spec as [[? ?] | [? ?]];
  set (x := t) in *; clearbody x.

Ltac minmax_cases :=
  repeat match goal with
         | |- context [Qmin ?a ?b] => minmax_step (Qmin a b) (Q.min_spec a b)
         | |- context [Qmax ?a ?b] => minmax_step (Qmax a b) (Q.max_spec a b)
         | _ : context [Qmin ?a ?b] |- _ =>
             minmax_step (Qmin a b) (Q.min_spec a b)
         | _ : context [Qmax ?a ?b] |- _ =>
             minmax_step (Qmax a b) (Q.max_spec a b)
         end.

Section Ranges.
Import JS.
Local Open Scope Q_scope.

Lemma round1_mono (x y : Q) : x <= y -> round1 x <= round1 y.
Proof.
  intro H. unfold round1.
  assert (R : (round (x * 10) <= round (y * 10))%Z)
    by (apply round_mono; lra).
  rewrite Zle_Qle in R.
  unfold Qdiv. apply Qmult_le_compat_r; [exact R | discriminate].
Qed.

Lemma round1_times10 (x : Q) : round1 x * 10 == inject_Z (round (x * 10)).
Proof. unfold round1. field. Qed.

Lemma round1_range (lo hi : Z) (x : Q) :
  inject_Z lo <= x * 10 <= inject_Z hi ->
  inject_Z lo <= round1 x * 10 <= inject_Z hi.
Proof.
  intros [L U]. rewrite round1_times10, <- !Zle_Qle. split.
  - rewrite <- (round_Z lo). apply round_mono, L.
  - rewrite <- (round_Z hi). apply round_mono, U.
Qed.

Lemma keywordRatio_bounds (answerText : string) (kws : list string) :
  0 <= keywordRatio answerText kws <= 1.
Proof.
  unfold keywordRatio.
  destruct (0 <? List.length kws)%nat eqn:E; [|lra].
  apply Nat.ltb_lt in E.
  apply ratio_bounds; [|assumption].
  unfold matchedKeywords. apply filter_length_le.
Qed.

Lemma keywordScore_bounds (answerText : string) (kws : list string) :
  0 <= keywordScore answerText kws <= 10.
Proof.
  unfold keywordScore. pose proof (keywordRatio_bounds answerText kws). lra.
Qed.

(** The ramp of the first branch is only taken below a positive bound,
    whatever [idealLength] is. *)
Lemma lengthScore_bounds (answerText : string) (idealLength : Q) :
  0 <= lengthScore answerText idealLength <= 10.
Proof.
  unfold lengthScore.
  pose proof (num_nonneg (wordCount answerText)) as Hwc.
  set (wc := num (wordCount answerText)) in *.
  cmp_cases (ltb wc (idealLength * 0.5)).
  - assert (Hh : 0 < idealLength * 0.5) by lra.
    assert (Q1 : 0 <= wc / (idealLength * 0.5))
      by (apply Qle_shift_div_l; lra).
    assert (Q2 : wc / (idealLength * 0.5) <= 1)
      by (apply Qle_shift_div_r; lra).
    lra.
  - cmp_cases (gtb wc (idealLength * 2)); [lra|].
    destruct (geb wc (idealLength * 0.8) && leb wc (idealLength * 1.5));
      lra.
Qed.

Lemma structureScore_bounds (answerText : string) :
  5 <= structureScore answerText <= 10.
Proof.
  unfold structureScore.
  destruct (3 <=? _)%nat; [|destruct (2 <=? _)%nat];
    destruct (_ || _ || _); destruct (hasTransitions _);
    minmax_cases; lra.
Qed.

Lemma clarityFrom_bounds (avg : Q) (fillers : nat) :
  5 <= clarityFrom avg fillers <= 10.
Proof.
  unfold clarityFrom, fillerStep, sentenceLengthStep.
  destruct (geb avg 10 && leb avg 30); [|destruct (ltb avg 10)];
    (destruct (fillers =? 0)%nat; [|destruct (5 <? fillers)%nat]);
    minmax_cases; lra.
Qed.

Lemma clarityScore_bounds (answerText : string) :
  5 <= clarityScore answerText <= 10.
Proof. apply clarityFrom_bounds. Qed.

Lemma totalScore_bounds (answerText : string) (kws : list string)
    (idealLength : Q) :
  2 <= totalScore answerText kws idealLength <= 10.
Proof.
  unfold totalScore, weighted.
  pose proof (keywordScore_bounds answerText kws).
  pose proof (lengthScore_bounds answerText idealLength).
  pose proof (structureScore_bounds answerText).
  pose proof (clarityScore_bounds answerText).
  lra.
Qed.

(** The fields of the returned record, in terms of the four dimensions. *)
Lemma scoreAnswer_fields (answerText : string) (kws : list string)
    (idealLength : Q) :
  let fb := scoreAnswer answerText kws idealLength in
  score fb = round1 (totalScore answerText kws idealLength)
  /\ technical_accuracy fb = round1 (keywordScore answerText kws)
  /\ clarity fb = round1 (clarityScore answerText)
  /\ structure fb = round1 (structureScore answerText).
Proof. repeat split. Qed.

Import AnalyzeAnswers.

Lemma rateScore_bounds (transcript : string) :
  0 <= rateScore transcript <= 100.
Proof.
  unfold rateScore.
  pose proof (Qabs_nonneg (num (wordsPerMinute transcript) - 135)).
  minmax_cases; lra.
Qed.

Lemma fillerRatio_nonneg (transcript : string) : 0 <= fillerRatio transcript.
Proof.
  unfold fillerRatio.
  apply Qle_shift_div_l.
  - apply num_pos. lia.
  - pose proof (num_nonneg (fillerWordCount transcript)). lra.
Qed.

Lemma fillerScore_bounds (transcript : string) :
  0 <= fillerScore transcript <= 100.
Proof.
  unfold fillerScore. pose proof (fillerRatio_nonneg transcript).
  minmax_cases; lra.
Qed.

Lemma confidenceScore_bounds (transcript : string) (clarityIn : Q) :
  0 <= clarityIn <= 10 ->
  (0 <= confidenceScore transcript clarityIn <= 100)%Z.
Proof.
  intros Hc. unfold confidenceScore.
  pose proof (rateScore_bounds transcript).
  pose proof (fillerScore_bounds transcript).
  split.
  - rewrite <- (round_Z 0). apply round_mono.
    change (inject_Z 0) with 0. lra.
  - rewrite <- (round_Z 100). apply round_mono.
    change (inject_Z 100) with 100. lra.
Qed.

End Ranges.

(* ================================================================== *)
(** * Properties of the specification                                  *)
(* ================================================================== *)

Section Properties.
Import JS.
Local Open Scope Q_scope.

(** C1: for every answer, keyword list and ideal length the four numbers
    returned by [scoreAnswer] lie between 0 and 10, and the confidence
    score of the voice analytics lies between 0 and 100 whenever the
    clarity it is given lies between 0 and 10. *)
Theorem outputs_in_range
    (answerText : string) (expectedKeywords : list string) (idealLength : Q)
    (transcript : option string) (clarityIn : Q) :
  let fb := scoreAnswer answerText expectedKeywords idealLength in
  (0 <= score fb <= 10
   /\ 0 <= technical_accuracy fb <= 10
   /\ 0 <= clarity fb <= 10
   /\ 0 <= structure fb <= 10)
  /\ (0 <= clarityIn <= 10 ->
      (0 <= AnalyzeAnswers.confidence_score
              (AnalyzeAnswers.voiceAnalytics transcript clarityIn) <= 100)%Z).
Proof.
  cbv zeta. split.
  - destruct (scoreAnswer_fields answerText expectedKeywords idealLength)
      as (-> & -> & -> & ->).
    pose proof (totalScore_bounds answerText expectedKeywords idealLength).
    pose proof (keywordScore_bounds answerText expectedKeywords).
    pose proof (clarityScore_bounds answerText).
    pose proof (structureScore_bounds answerText).
    pose proof (round1_range 0 100
                  (totalScore answerText expectedKeywords idealLength)).
    pose proof (round1_range 0 100 (keywordScore answerText expectedKeywords)).
    pose proof (round1_range 0 100 (clarityScore answerText)).
    pose proof (round1_range 0 100 (structureScore answerText)).
    change (inject_Z 0) with 0 in *. change (inject_Z 100) with 100 in *.
    repeat split; lra.
  - intro Hc. unfold AnalyzeAnswers.voiceAnalytics.
    destruct transcript as [t|]; [destruct (0 <? String.length t)%nat|];
      cbn [AnalyzeAnswers.confidence_score]; try lia.
    apply confidenceScore_bounds, Hc.
Qed.

Lemma outputs_in_range_witness :
  (0 <= AnalyzeAnswers.confidence_score
          (AnalyzeAnswers.voiceAnalytics (Some "um, it works well") 8)
   <= 100)%Z.
Proof.
  apply (proj2 (outputs_in_range "it works" ["works"] 40
                                 (Some "um, it works well")%string 8)).
  split; discriminate.
Defined.

(** C10: the structure and the clarity dimension, and the fields that
    report them, never leave the interval from 5 to 10; hence the score
    returned is at least 2.0 for every input. *)
Theorem score_at_least_two
    (answerText : string) (expectedKeywords : list string) (idealLength : Q) :
  let fb := scoreAnswer answerText expectedKeywords idealLength in
  5 <= structureScore answerText <= 10
  /\ 5 <= clarityScore answerText <= 10
  /\ 5 <= structure fb <= 10
  /\ 5 <= clarity fb <= 10
  /\ 2 <= score fb.
Proof.
  cbv zeta.
  destruct (scoreAnswer_fields answerText expectedKeywords idealLength)
    as (-> & _ & -> & ->).
  pose proof (totalScore_bounds answerText expectedKeywords idealLength).
  pose proof (clarityScore_bounds answerText).
  pose proof (structureScore_bounds answerText).
  pose proof (round1_range 20 100
                (totalScore answerText expectedKeywords idealLength)).
  pose proof (round1_range 50 100 (clarityScore answerText)).
  pose proof (round1_range 50 100 (structureScore answerText)).
  change (inject_Z 20) with 20 in *. change (inject_Z 50) with 50 in *.
  change (inject_Z 100) with 100 in *.
  repeat split; lra.
Qed.

Lemma keywordRatio_mono (answerText : string) (kws1 kws2 : list string) :
  List.length kws1 = List.length kws2 ->
  (List.length (matchedKeywords answerText kws1)
   <= List.length (matchedKeywords answerText kws2))%nat ->
  keywordRatio answerText kws1 <= keywordRatio answerText kws2.
Proof.
  intros Hlen Hm. unfold keywordRatio. rewrite Hlen.
  destruct (0 <? List.length kws2)%nat eqn:E; [|lra].
  apply Nat.ltb_lt in E. apply ratio_mono; assumption.
Qed.

(** C3: for one answer and one ideal length, and two keyword lists of the
    same size, the list with at least as many matched keywords gets at
    least as high a technical accuracy and at least as high a score. *)
Theorem more_matches_never_lower
    (answerText : string) (kws1 kws2 : list string) (idealLength : Q) :
  List.length kws1 = List.length kws2 ->
  (List.length (matchedKeywords answerText kws1)
   <= List.length (matchedKeywords answerText kws2))%nat ->
  technical_accuracy (scoreAnswer answerText kws1 idealLength)
    <= technical_accuracy (scoreAnswer answerText kws2 idealLength)
  /\ score (scoreAnswer answerText kws1 idealLength)
       <= score (scoreAnswer answerText kws2 idealLength).
Proof.
  intros Hlen Hm.
  pose proof (keywordRatio_mono answerText kws1 kws2 Hlen Hm) as Hr.
  destruct (scoreAnswer_fields answerText kws1 idealLength)
    as (-> & -> & _ & _).
  destruct (scoreAnswer_fields answerText kws2 idealLength)
    as (-> & -> & _ & _).
  split; apply round1_mono.
  - unfold keywordScore. lra.
  - unfold totalScore, weighted, keywordScore. lra.
Qed.

Lemma more_matches_never_lower_witness :
  technical_accuracy
      (scoreAnswer "Binary search needs a sorted array" ["sorted"; "heap"] 40)
    <= technical_accuracy
         (scoreAnswer "Binary search needs a sorted array"
                      ["sorted"; "binary"] 40)
  /\ score
       (scoreAnswer "Binary search needs a sorted array" ["sorted"; "heap"] 40)
     <= score
          (scoreAnswer "Binary search needs a sorted array"
                       ["sorted"; "binary"] 40).
Proof.
  apply (more_matches_never_lower
           "Binary search needs a sorted array"
           ["sorted"; "heap"]%string ["sorted"; "binary"]%string 40).
  - reflexivity.
  - vm_compute. lia.
Defined.

(** ** The divisions of [scoreAnswer] *)

Lemma divide_nonzero (x y : Q) :
  ~ y == 0 -> Guarded.divide x y = Guarded.Ok (x / y).
Proof.
  intro H. unfold Guarded.divide.
  destruct (Qeq_bool y 0) eqn:E; [|reflexivity].
  apply Qeq_bool_iff in E. contradiction.
Qed.

Lemma guarded_keywordRatio (answerText : string) (kws : list string) :
  Guarded.keywordRatio answerText kws
  = Guarded.Ok (keywordRatio answerText kws).
Proof.
  unfold Guarded.keywordRatio, keywordRatio.
  destruct (0 <? List.length kws)%nat eqn:E; [|reflexivity].
  apply Nat.ltb_lt, num_pos in E.
  apply divide_nonzero. lra.
Qed.

Lemma guarded_lengthScore (answerText : string) (idealLength : Q) :
  Guarded.lengthScore answerText idealLength
  = Guarded.Ok (lengthScore answerText idealLength).
Proof.
  unfold Guarded.lengthScore, lengthScore. cbv zeta.
  pose proof (num_nonneg (wordCount answerText)) as Hwc.
  cmp_cases (ltb (num (wordCount answerText)) (idealLength * 0.5)).
  - rewrite divide_nonzero by lra. reflexivity.
  - destruct (gtb _ _); [reflexivity|].
    destruct (_ && _); reflexivity.
Qed.

Lemma guarded_avgSentenceLength (answerText : string) :
  Guarded.avgSentenceLength answerText
  = Guarded.Ok (avgSentenceLength answerText).
Proof.
  unfold Guarded.avgSentenceLength, avgSentenceLength.
  destruct (0 <? List.length (sentences answerText))%nat eqn:E;
    [|reflexivity].
  apply Nat.ltb_lt, num_pos in E.
  apply divide_nonzero. lra.
Qed.

(** C9: [scoreAnswer] returns a feedback record for every answer (the
    empty one included), every keyword list and every ideal length: run
    with a division that fails on a zero divisor, it never fails and
    returns the very record of [scoreAnswer], so each of its three
    divisions is guarded. *)
Theorem scoreAnswer_never_fails
    (answerText : string) (expectedKeywords : list string) (idealLength : Q) :
  Guarded.scoreAnswer answerText expectedKeywords idealLength
  = Guarded.Ok (scoreAnswer answerText expectedKeywords idealLength).
Proof.
  unfold Guarded.scoreAnswer.
  rewrite guarded_keywordRatio, guarded_lengthScore,
    guarded_avgSentenceLength.
  reflexivity.
Qed.

(** ** The binary-search scenario *)

(** C2, as the specification states it: three of the four keywords
    matched, ratio 0.75, keyword score 7.5, length score 10, a score
    between 8.2 and 8.6, the two strengths, at most one weakness.  The
    answer has "dividing", of which "divide" is no substring, so only two
    keywords match. *)
Lemma binary_search_scenario_as_stated_fails :
  let a := Scenario.binarySearchAnswer in
  let kws := Scenario.binarySearchKeywords in
  let fb := scoreAnswer a kws Scenario.binarySearchIdeal in
  ~ (matchedKeywords a kws = ["binary search"; "divide"; "sorted"]
     /\ keywordRatio a kws == 0.75
     /\ keywordScore a kws == 7.5
     /\ lengthScore a Scenario.binarySearchIdeal == 10
     /\ 8.2 <= score fb <= 8.6
     /\ In msgCoveredMost (strengths fb)
     /\ In msgGoodLength (strengths fb)
     /\ (List.length (weaknesses fb) <= 1)%nat).
Proof.
  cbv zeta. intros [H _]. vm_compute in H. discriminate H.
Qed.

(** C2, as the code computes it: "binary search" and "sorted" match,
    "divide" and "logarithmic" do not; ratio 0.5 and keyword score 5; the
    32 words lie in the band from 32 to 60, so the length score is 10;
    structure 8 and clarity 10; the score is 7.6; the strengths are the
    good length, the structure and the clarity; the one weakness is the
    missing concepts, with the suggestion that names the two keywords. *)
Theorem binary_search_scenario :
  let a := Scenario.binarySearchAnswer in
  let kws := Scenario.binarySearchKeywords in
  let ideal := Scenario.binarySearchIdeal in
  let fb := scoreAnswer a kws ideal in
  matchedKeywords a kws = ["binary search"; "sorted"]
  /\ keywordRatio a kws == 0.5
  /\ keywordScore a kws == 5
  /\ wordCount a = 32%nat
  /\ (ideal * 0.8 <= num (wordCount a) <= ideal * 1.5)
  /\ lengthScore a ideal == 10
  /\ structureScore a == 8
  /\ clarityScore a == 10
  /\ score fb == 7.6
  /\ technical_accuracy fb == 5
  /\ strengths fb = [msgGoodLength; msgWellStructured; msgClear]
  /\ weaknesses fb = [msgSomeMissing]
  /\ suggestions fb = ["Consider discussing: divide, logarithmic"].
Proof.
  cbv zeta.
  repeat match goal with |- _ /\ _ => split end;
    try (vm_compute; reflexivity);
    vm_compute; discriminate.
Qed.

(** ** The empty answer *)

Lemma includes_empty_haystack (needle : string) :
  needle <> "" -> includes "" needle = false.
Proof. destruct needle; [congruence | reflexivity]. Qed.

Lemma toLowerCase_nonempty (s : string) : s <> "" -> toLowerCase s <> "".
Proof. destruct s; [congruence | discriminate]. Qed.

Lemma matchedKeywords_empty_answer (kws : list string) :
  Forall (fun kw => kw <> "") kws -> matchedKeywords "" kws = [].
Proof.
  unfold matchedKeywords. change (answer "") with "".
  induction 1 as [|kw kws Hkw _ IH]; [reflexivity|].
  cbn [filter].
  rewrite (includes_empty_haystack _ (toLowerCase_nonempty kw Hkw)).
  exact IH.
Qed.

Lemma round1_comp (x y : Q) : x == y -> round1 x = round1 y.
Proof.
  intro H. unfold round1, round. f_equal. f_equal.
  apply Qfloor_comp. rewrite H. reflexivity.
Qed.

(** C5, as the specification states it, at the rubric [["stack"]] with
    ideal length 40: the clarity of the empty answer would be the base 7
    adjusted for its sentences only.  That adjustment gives 8; the code
    also adds the bonus for an answer without filler words and yields 9. *)
Lemma empty_answer_as_stated_fails :
  ~ (keywordScore "" ["stack"] == 0
     /\ wordCount "" = 0%nat
     /\ lengthScore "" 40 == 0
     /\ structureScore "" == 5
     /\ clarityScore "" == sentenceLengthStep (avgSentenceLength "") 7).
Proof.
  intros (_ & _ & _ & _ & H). vm_compute in H. discriminate H.
Qed.

(** C5, as the code computes it: for the empty answer, a non-empty list of
    non-empty keywords and a positive ideal length, no keyword matches and
    the keyword score is 0, there is no word and the length score is 0,
    the structure score is the base 5, and the clarity score is
    7 + 1 + 1 = 9 (an average sentence length of 0 is below 10, and there
    is no filler word); the score is 0.2 * 5 + 0.2 * 9 = 2.8. *)
Theorem empty_answer
    (expectedKeywords : list string) (idealLength : Q) :
  expectedKeywords <> [] ->
  Forall (fun kw => kw <> "") expectedKeywords ->
  0 < idealLength ->
  let fb := scoreAnswer "" expectedKeywords idealLength in
  matchedKeywords "" expectedKeywords = []
  /\ keywordScore "" expectedKeywords == 0
  /\ wordCount "" = 0%nat
  /\ lengthScore "" idealLength == 0
  /\ structureScore "" == 5
  /\ avgSentenceLength "" == 0
  /\ fillerCount "" = 0%nat
  /\ clarityScore "" == 7 + 1 + 1
  /\ score fb == 2.8
  /\ technical_accuracy fb == 0.
Proof.
  intros Hne Hkws Hpos. cbv zeta.
  pose proof (matchedKeywords_empty_answer expectedKeywords Hkws) as Hm.
  assert (Hk : keywordScore "" expectedKeywords == 0).
  { unfold keywordScore, keywordRatio. rewrite Hm.
    destruct (0 <? List.length expectedKeywords)%nat.
    - change (num (List.length [])) with 0. unfold Qdiv. lra.
    - lra. }
  assert (Hl : lengthScore "" idealLength == 0).
  { unfold lengthScore. change (num (wordCount "")) with 0. cbv zeta.
    cmp_cases (ltb 0 (idealLength * 0.5)); [|lra].
    unfold Qdiv. lra. }
  assert (Hs : structureScore "" == 5) by (vm_compute; reflexivity).
  assert (Hc : clarityScore "" == 9) by (vm_compute; reflexivity).
  destruct (scoreAnswer_fields "" expectedKeywords idealLength)
    as (-> & -> & _ & _).
  split; [exact Hm|]. split; [exact Hk|]. split; [reflexivity|].
  split; [exact Hl|]. split; [exact Hs|].
  split; [vm_compute; reflexivity|]. split; [reflexivity|].
  split; [rewrite Hc; reflexivity|]. split.
  - rewrite (round1_comp _ 2.8); [vm_compute; reflexivity|].
    unfold totalScore, weighted. rewrite Hk, Hl, Hs, Hc. reflexivity.
  - rewrite (round1_comp _ 0 Hk). vm_compute; reflexivity.
Qed.

Lemma empty_answer_witness :
  score (scoreAnswer "" ["stack"; "lifo"] 40) == 2.8.
Proof.
  destruct (empty_answer ["stack"; "lifo"]%string 40) as (_ & _ & _ & _ & _ & _ & _ & _ & H & _).
  - discriminate.
  - repeat constructor; discriminate.
  - reflexivity.
  - exact H.
Defined.

(** ** The voice scenario *)

Lemma words_of_empty_transcript : AnalyzeAnswers.wordCount "" = 0%nat.
Proof. reflexivity. Qed.

(** The metrics of a transcript of 67 words of which the code counts 3 as
    fillers. *)
Lemma voice_metrics_from_counts (transcript : string) :
  AnalyzeAnswers.wordCount transcript = 67%nat ->
  AnalyzeAnswers.fillerWordCount transcript = 3%nat ->
  AnalyzeAnswers.wordsPerMinute transcript = 134%nat
  /\ AnalyzeAnswers.rateScore transcript == 99.5
  /\ AnalyzeAnswers.fillerRatio transcript == 3 / 67
  /\ 77.6 <= AnalyzeAnswers.fillerScore transcript < 77.65
  /\ AnalyzeAnswers.confidenceScore transcript 8 = 87%Z
  /\ round (99.5 * 0.4 + 77.6 * 0.3 + 80 * 0.3) = 87%Z
  /\ AnalyzeAnswers.voiceAnalytics (Some transcript) 8
     = AnalyzeAnswers.mkVoiceMetrics 87 134 3.
Proof.
  intros Hw Hf.
  assert (Hwpm : AnalyzeAnswers.wordsPerMinute transcript = 134%nat)
    by (unfold AnalyzeAnswers.wordsPerMinute; rewrite Hw; reflexivity).
  assert (Hc : AnalyzeAnswers.confidenceScore transcript 8 = 87%Z).
  { unfold AnalyzeAnswers.confidenceScore, AnalyzeAnswers.rateScore,
      AnalyzeAnswers.fillerScore, AnalyzeAnswers.fillerRatio.
    rewrite Hwpm, Hw, Hf. vm_compute. reflexivity. }
  split; [exact Hwpm|].
  split; [unfold AnalyzeAnswers.rateScore; rewrite Hwpm;
          vm_compute; reflexivity|].
  split; [unfold AnalyzeAnswers.fillerRatio; rewrite Hw, Hf;
          vm_compute; reflexivity|].
  split; [unfold AnalyzeAnswers.fillerScore, AnalyzeAnswers.fillerRatio;
          rewrite Hw, Hf; split; vm_compute; congruence|].
  split; [exact Hc|].
  split; [vm_compute; reflexivity|].
  unfold AnalyzeAnswers.voiceAnalytics.
  destruct transcript as [|c t].
  - rewrite words_of_empty_transcript in Hw. discriminate Hw.
  - cbn [String.length Nat.ltb Nat.leb]. rewrite Hc, Hwpm, Hf. reflexivity.
Qed.

(** ** Filler words and clarity *)

Lemma fillerCount_at_least_um (answerText : string) :
  (occurrences "um" (answer answerText) <= fillerCount answerText)%nat.
Proof.
  unfold fillerCount, fillerWords. cbn [fold_left]. lia.
Qed.

Lemma clarityFrom_many_fillers (avg : Q) (fillers : nat) :
  (5 < fillers)%nat -> clarityFrom avg fillers <= 7.
Proof.
  intro H. unfold clarityFrom, fillerStep, sentenceLengthStep.
  destruct (Nat.eqb_spec fillers 0); [lia|].
  destruct (Nat.ltb_spec 5 fillers); [|lia].
  destruct (geb avg 10 && leb avg 30); [|destruct (ltb avg 10)];
    minmax_cases; lra.
Qed.

Lemma clarityFrom_no_fillers (avg : Q) : 8 <= clarityFrom avg 0.
Proof.
  unfold clarityFrom, fillerStep, sentenceLengthStep. cbn [Nat.eqb].
  destruct (geb avg 10 && leb avg 30); [|destruct (ltb avg 10)];
    minmax_cases; lra.
Qed.

(** C7: an answer in which "um" occurs six times gets a strictly lower
    clarity than an answer without any filler word, whatever else the two
    answers contain; in particular than the same answer with the fillers
    taken out. *)
Theorem six_um_lower_clarity
    (withFillers withoutFillers : string) (expectedKeywords : list string)
    (idealLength : Q) :
  occurrences "um" (answer withFillers) = 6%nat ->
  fillerCount withoutFillers = 0%nat ->
  clarity (scoreAnswer withFillers expectedKeywords idealLength)
  < clarity (scoreAnswer withoutFillers expectedKeywords idealLength).
Proof.
  intros Hum Hnone.
  pose proof (fillerCount_at_least_um withFillers) as Hge.
  destruct (scoreAnswer_fields withFillers expectedKeywords idealLength)
    as (_ & _ & -> & _).
  destruct (scoreAnswer_fields withoutFillers expectedKeywords idealLength)
    as (_ & _ & -> & _).
  pose proof (clarityScore_bounds withFillers) as B1.
  pose proof (clarityScore_bounds withoutFillers) as B2.
  assert (U : clarityScore withFillers <= 7)
    by (apply clarityFrom_many_fillers; lia).
  assert (L : 8 <= clarityScore withoutFillers)
    by (unfold clarityScore; rewrite Hnone; apply clarityFrom_no_fillers).
  pose proof (round1_range 50 70 (clarityScore withFillers)) as R1.
  pose proof (round1_range 80 100 (clarityScore withoutFillers)) as R2.
  change (inject_Z 50) with 50 in *. change (inject_Z 70) with 70 in *.
  change (inject_Z 80) with 80 in *. change (inject_Z 100) with 100 in *.
  lra.
Qed.

Lemma six_um_lower_clarity_witness :
  clarity (scoreAnswer Scenario.answerWithUm ["stack"] 40)
  < clarity (scoreAnswer Scenario.answerWithoutUm ["stack"] 40).
Proof.
  apply (six_um_lower_clarity Scenario.answerWithUm Scenario.answerWithoutUm);
    vm_compute; reflexivity.
Defined.

(** ** The clarity feedback *)

Ltac feedback_cases :=
  repeat match goal with
         | |- context [if ?b then _ else _] => destruct b
         end;
  cbn [strengthsArr weaknessesArr suggestionsArr
       pushStrength pushWeakness pushSuggestion];
  rewrite ?in_app_iff; cbn [In];
  intuition (try discriminate).

(** The three earlier blocks append none of the three clarity messages. *)
Lemma keywordFeedback_keeps (answerText : string) (kws : list string)
    (ratio : Q) (a : Arrays) :
  let a' := keywordFeedback answerText kws ratio a in
  (In msgFillers (weaknessesArr a') <-> In msgFillers (weaknessesArr a))
  /\ (In msgPractice (suggestionsArr a') <-> In msgPractice (suggestionsArr a))
  /\ (In msgClear (strengthsArr a') <-> In msgClear (strengthsArr a)).
Proof.
  cbv zeta. unfold keywordFeedback. cbv zeta. feedback_cases.
Qed.

Lemma lengthFeedback_keeps (wc : nat) (idealLength : Q) (a : Arrays) :
  let a' := lengthFeedback wc idealLength a in
  (In msgFillers (weaknessesArr a') <-> In msgFillers (weaknessesArr a))
  /\ (In msgPractice (suggestionsArr a') <-> In msgPractice (suggestionsArr a))
  /\ (In msgClear (strengthsArr a') <-> In msgClear (strengthsArr a)).
Proof.
  cbv zeta. unfold lengthFeedback. cbv zeta. feedback_cases.
Qed.

Lemma structureFeedback_keeps (st : Q) (a : Arrays) :
  let a' := structureFeedback st a in
  (In msgFillers (weaknessesArr a') <-> In msgFillers (weaknessesArr a))
  /\ (In msgPractice (suggestionsArr a') <-> In msgPractice (suggestionsArr a))
  /\ (In msgClear (strengthsArr a') <-> In msgClear (strengthsArr a)).
Proof.
  cbv zeta. unfold structureFeedback. feedback_cases.
Qed.

Lemma clarityFeedback_adds (cl : Q) (fillers : nat) (a : Arrays) :
  ~ In msgFillers (weaknessesArr a) ->
  ~ In msgPractice (suggestionsArr a) ->
  ~ In msgClear (strengthsArr a) ->
  let a' := clarityFeedback cl fillers a in
  (In msgFillers (weaknessesArr a') <-> (3 < fillers)%nat /\ cl < 8)
  /\ (In msgPractice (suggestionsArr a') <-> (3 < fillers)%nat /\ cl < 8)
  /\ (In msgClear (strengthsArr a') <-> 8 <= cl).
Proof.
  intros Hw Hs Hc. cbv zeta. unfold clarityFeedback.
  cmp_cases (geb cl 8); [|destruct (Nat.ltb_spec 3 fillers)];
    cbn [strengthsArr weaknessesArr suggestionsArr
         pushStrength pushWeakness pushSuggestion];
    rewrite ?in_app_iff; cbn [In];
    repeat split; intros; try tauto; try lra; try lia;
    repeat match goal with H : _ /\ _ |- _ => destruct H end;
    try lra; try lia.
Qed.

(** C4, as the specification states it, at the answer "um um um um": the
    four fillers exceed 3, yet neither the filler weakness nor the filler
    suggestion is appended, because the clarity score is 8 and the
    "clear explanation" strength is appended instead. *)
Lemma filler_feedback_as_stated_fails :
  let fb := scoreAnswer "um um um um" [] 40 in
  ~ ((3 < fillerCount "um um um um")%nat ->
     In msgFillers (weaknesses fb) /\ In msgPractice (suggestions fb)).
Proof.
  cbv zeta. intro H.
  assert (F : (3 < fillerCount "um um um um")%nat) by (vm_compute; lia).
  destruct (H F) as [W _]. vm_compute in W.
  repeat (destruct W as [W|W]; [discriminate W|]). exact W.
Qed.

(** The clarity chain within the whole function. *)
Lemma clarity_chain
    (answerText : string) (expectedKeywords : list string) (idealLength : Q) :
  let fb := scoreAnswer answerText expectedKeywords idealLength in
  (In msgFillers (weaknesses fb)
   <-> (3 < fillerCount answerText)%nat /\ clarityScore answerText < 8)
  /\ (In msgPractice (suggestions fb)
      <-> (3 < fillerCount answerText)%nat /\ clarityScore answerText < 8)
  /\ (In msgClear (strengths fb) <-> 8 <= clarityScore answerText).
Proof.
  cbv zeta. unfold scoreAnswer, report.
  cbn [strengths weaknesses suggestions].
  set (a0 := mkArrays [] [] []).
  set (a1 := keywordFeedback answerText expectedKeywords
               (keywordRatio answerText expectedKeywords) a0).
  set (a2 := lengthFeedback (wordCount answerText) idealLength a1).
  set (a3 := structureFeedback (structureScore answerText) a2).
  destruct (keywordFeedback_keeps answerText expectedKeywords
              (keywordRatio answerText expectedKeywords) a0) as (W1 & S1 & C1).
  destruct (lengthFeedback_keeps (wordCount answerText) idealLength a1)
    as (W2 & S2 & C2).
  destruct (structureFeedback_keeps (structureScore answerText) a2)
    as (W3 & S3 & C3).
  fold a1 in W1, S1, C1. fold a2 in W2, S2, C2. fold a3 in W3, S3, C3.
  apply clarityFeedback_adds.
  - rewrite W3, W2, W1. exact (fun x => x).
  - rewrite S3, S2, S1. exact (fun x => x).
  - rewrite C3, C2, C1. exact (fun x => x).
Qed.

(** The three arrays of the result, chain by chain: the contribution of
    the keyword chain, then of the length chain, of the structure chain
    and of the clarity chain. *)
Lemma feedback_by_chain
    (answerText : string) (expectedKeywords : list string) (idealLength : Q) :
  let fb := scoreAnswer answerText expectedKeywords idealLength in
  let ratio := keywordRatio answerText expectedKeywords in
  let wc := num (wordCount answerText) in
  let st := structureScore answerText in
  let cl := clarityScore answerText in
  let missing :=
    filter (fun kw => negb (includes (answer answerText) (toLowerCase kw)))
           expectedKeywords in
  strengths fb
  = ((if geb ratio 0.7 then [msgCoveredMost] else [])
     ++ (if ltb wc (idealLength * 0.5) then []
         else if geb wc (idealLength * 0.8) && leb wc (idealLength * 1.5)
              then [msgGoodLength] else [])
     ++ (if geb st 8 then [msgWellStructured] else [])
     ++ (if geb cl 8 then [msgClear] else []))%list
  /\ weaknesses fb
     = ((if geb ratio 0.7 then []
         else if geb ratio 0.4 then [msgSomeMissing] else [msgManyMissing])
        ++ (if ltb wc (idealLength * 0.5) then [msgTooBrief]
            else if geb wc (idealLength * 0.8) && leb wc (idealLength * 1.5)
                 then []
                 else if gtb wc (idealLength * 2) then [msgTooLong] else [])
        ++ (if geb st 8 then []
            else if ltb st 6 then [msgOrganize] else [])
        ++ (if geb cl 8 then []
            else if (3 <? fillerCount answerText)%nat then [msgFillers]
                 else []))%list
  /\ suggestions fb
     = ((if geb ratio 0.7 then []
         else if geb ratio 0.4
              then if (0 <? List.length missing)%nat
                      && (List.length missing <=? 3)%nat
                   then [("Consider discussing: "
                          ++ join ", " (firstn 3 missing))%string]
                   else []
              else [msgReview])
        ++ (if ltb wc (idealLength * 0.5) then [msgMoreDetail]
            else if geb wc (idealLength * 0.8) && leb wc (idealLength * 1.5)
                 then []
                 else if gtb wc (idealLength * 2) then [msgConcise] else [])
        ++ (if geb st 8 then []
            else if ltb st 6 then [msgApproach] else [])
        ++ (if geb cl 8 then []
            else if (3 <? fillerCount answerText)%nat then [msgPractice]
                 else []))%list.
Proof.
  cbv zeta.
  unfold scoreAnswer, report, clarityFeedback, structureFeedback,
    lengthFeedback, keywordFeedback.
  cbv zeta. cbn [strengths weaknesses suggestions].
  destruct (geb (keywordRatio answerText expectedKeywords) 0.7);
    [|destruct (geb (keywordRatio answerText expectedKeywords) 0.4);
      [destruct (_ && (_ <=? 3)%nat)|]];
    (destruct (ltb (num (wordCount answerText)) (idealLength * 0.5));
     [|destruct (geb (num (wordCount answerText)) (idealLength * 0.8)
                 && leb (num (wordCount answerText)) (idealLength * 1.5));
       [|destruct (gtb (num (wordCount answerText)) (idealLength * 2))]]);
    (destruct (geb (structureScore answerText) 8);
     [|destruct (ltb (structureScore answerText) 6)]);
    (destruct (geb (clarityScore answerText) 8);
     [|destruct (3 <? fillerCount answerText)%nat]);
    repeat split.
Qed.

(** Membership in one chain's contribution that cannot hold, because the
    chain has no such message. *)
Ltac foreign_parts :=
  repeat match goal with
         | |- context [In ?m ?part] =>
             let H := fresh "H" in
             assert (H : In m part <-> False)
               by (repeat match goal with
                          | |- context [if ?b then _ else _] => destruct b
                          end;
                   cbn [In]; split; [|tauto];
                   let K := fresh "K" in
                   intro K;
                   repeat (destruct K as [K|K]; [discriminate K|]);
                   exact K);
             rewrite H; clear H
         end.

Ltac own_part :=
  repeat match goal with
         | |- context [geb ?x ?y] => cmp_cases (geb x y)
         | |- context [leb ?x ?y] => cmp_cases (leb x y)
         | |- context [ltb ?x ?y] => cmp_cases (ltb x y)
         | |- context [gtb ?x ?y] => cmp_cases (gtb x y)
         | |- context [Nat.ltb ?x ?y] => destruct (Nat.ltb_spec x y)
         | |- context [Nat.leb ?x ?y] => destruct (Nat.leb_spec x y)
         end;
  cbn [andb In];
  (split;
   [ let K := fresh "K" in
     intro K;
     repeat (destruct K as [K|K]; try discriminate K; try contradiction);
     repeat split; first [lra | lia]
   | let K := fresh "K" in
     intro K;
     first [ exfalso; first [lra | lia]
           | tauto
           | left; reflexivity
           | right; left; reflexivity
           | right; right; left; reflexivity
           | right; right; right; left; reflexivity ] ]).

Ltac verdict := rewrite ?in_app_iff; foreign_parts; own_part.

(** C4, as the code computes it: every check puts its message in the
    output exactly when its own condition holds, whatever the other checks
    do, with one exception.  The filler check is the [else] branch of the
    clarity check: the filler weakness and the filler suggestion are in
    the output exactly when the filler count exceeds 3 and the clarity
    score is below 8, and the "clear explanation" strength is in the
    output exactly when the clarity score is at least 8. *)
Theorem filler_feedback
    (answerText : string) (expectedKeywords : list string) (idealLength : Q) :
  let fb := scoreAnswer answerText expectedKeywords idealLength in
  let ratio := keywordRatio answerText expectedKeywords in
  let wc := num (wordCount answerText) in
  let st := structureScore answerText in
  let cl := clarityScore answerText in
  let missing :=
    filter (fun kw => negb (includes (answer answerText) (toLowerCase kw)))
           expectedKeywords in
  (In msgFillers (weaknesses fb)
   <-> (3 < fillerCount answerText)%nat /\ cl < 8)
  /\ (In msgPractice (suggestions fb)
      <-> (3 < fillerCount answerText)%nat /\ cl < 8)
  /\ (In msgClear (strengths fb) <-> 8 <= cl)
  /\ (In msgCoveredMost (strengths fb) <-> 0.7 <= ratio)
  /\ (In msgSomeMissing (weaknesses fb) <-> 0.4 <= ratio < 0.7)
  /\ (In ("Consider discussing: " ++ join ", " (firstn 3 missing))%string
         (suggestions fb)
      <-> 0.4 <= ratio < 0.7 /\ (1 <= List.length missing <= 3)%nat)
  /\ (In msgManyMissing (weaknesses fb) <-> ratio < 0.4)
  /\ (In msgReview (suggestions fb) <-> ratio < 0.4)
  /\ (In msgTooBrief (weaknesses fb) <-> wc < idealLength * 0.5)
  /\ (In msgMoreDetail (suggestions fb) <-> wc < idealLength * 0.5)
  /\ (In msgGoodLength (strengths fb)
      <-> idealLength * 0.8 <= wc <= idealLength * 1.5)
  /\ (In msgTooLong (weaknesses fb) <-> idealLength * 2 < wc)
  /\ (In msgConcise (suggestions fb) <-> idealLength * 2 < wc)
  /\ (In msgWellStructured (strengths fb) <-> 8 <= st)
  /\ (In msgOrganize (weaknesses fb) <-> st < 6)
  /\ (In msgApproach (suggestions fb) <-> st < 6).
Proof.
  cbv zeta.
  destruct (clarity_chain answerText expectedKeywords idealLength)
    as (F1 & F2 & F3).
  split; [exact F1|]. split; [exact F2|]. split; [exact F3|].
  clear F1 F2 F3.
  destruct (feedback_by_chain answerText expectedKeywords idealLength)
    as (-> & -> & ->).
  pose proof (num_nonneg (wordCount answerText)) as Hwc.
  set (wc := num (wordCount answerText)) in *.
  set (ratio := keywordRatio answerText expectedKeywords).
  set (st := structureScore answerText).
  set (cl := clarityScore answerText).
  set (missing := filter _ expectedKeywords).
  repeat match goal with |- _ /\ _ => split end; verdict.
Qed.

Lemma filler_feedback_witness :
  In msgFillers (weaknesses (scoreAnswer Scenario.answerWithUm ["stack"] 40)).
Proof.
  apply (proj1 (filler_feedback Scenario.answerWithUm ["stack"]%string 40)).
  split; [vm_compute; lia | vm_compute; reflexivity].
Defined.

(** ** The filler words of a transcript *)

Section Tokens.
Import FillerReading.

Lemma anyUnit_app (cls : ascii -> bool) (s t : string) :
  anyUnit cls (s ++ t) = anyUnit cls s || anyUnit cls t.
Proof.
  induction s as [|c s IH]; [reflexivity|].
  cbn [append anyUnit]. rewrite IH. apply orb_assoc.
Qed.

(** No fragment of a split at runs of a class has a character of the
    class. *)
Lemma splitRunsFrom_fragments (cls : ascii -> bool) (s : string) :
  forall (inRun : bool) (cur w : string),
    anyUnit cls cur = false ->
    In w (splitRunsFrom cls inRun cur s) ->
    anyUnit cls w = false.
Proof.
  induction s as [|c s IH]; intros inRun cur w Hcur Hin.
  - destruct Hin as [<-|[]]. exact Hcur.
  - cbn [splitRunsFrom] in Hin. destruct (cls c) eqn:Ec.
    + destruct inRun.
      * apply (IH true EmptyString); [reflexivity | exact Hin].
      * destruct Hin as [<-|Hin]; [exact Hcur|].
        apply (IH true EmptyString); [reflexivity | exact Hin].
    + apply (IH false (cur ++ String c EmptyString)); [|exact Hin].
      rewrite anyUnit_app, Hcur. cbn [anyUnit]. rewrite Ec. reflexivity.
Qed.

Lemma words_no_whitespace (transcript w : string) :
  In w (AnalyzeAnswers.words transcript) -> anyUnit isWhiteSpace w = false.
Proof.
  unfold AnalyzeAnswers.words, splitRuns. intro H.
  apply filter_In in H. destruct H as [H _].
  apply (splitRunsFrom_fragments isWhiteSpace transcript false "" w);
    [reflexivity | exact H].
Qed.

(** Lower-casing neither makes nor removes a space or a punctuation
    mark. *)
Lemma toLowerUnit_whitespace (c : ascii) :
  isWhiteSpace (toLowerUnit c) = isWhiteSpace c.
Proof. destruct c as [[] [] [] [] [] [] [] []]; reflexivity. Qed.

Lemma toLowerUnit_punctuation (c : ascii) :
  AnalyzeAnswers.isPunctuation (toLowerUnit c)
  = AnalyzeAnswers.isPunctuation c.
Proof. destruct c as [[] [] [] [] [] [] [] []]; reflexivity. Qed.

Lemma normalised_no_whitespace (w : string) :
  anyUnit isWhiteSpace w = false ->
  anyUnit isWhiteSpace
    (removeAll AnalyzeAnswers.isPunctuation (toLowerCase w)) = false.
Proof.
  induction w as [|c w IH]; [reflexivity|].
  cbn [anyUnit toLowerCase removeAll]. intro H.
  apply orb_false_iff in H. destruct H as [Hc Hw].
  destruct (AnalyzeAnswers.isPunctuation (toLowerUnit c)).
  - apply IH, Hw.
  - cbn [anyUnit]. rewrite toLowerUnit_whitespace, Hc. apply IH, Hw.
Qed.

(** A string without a space is not the two-word filler. *)
Lemma not_you_know (x : string) :
  anyUnit isWhiteSpace x = false -> String.eqb x "you know" = false.
Proof.
  intro H. destruct (String.eqb_spec x "you know") as [->|]; [|reflexivity].
  vm_compute in H. discriminate H.
Qed.

Lemma one_word_table (x : string) :
  anyUnit isWhiteSpace x = false ->
  AnalyzeAnswers.arrayIncludes AnalyzeAnswers.fillerWords x
  = AnalyzeAnswers.arrayIncludes oneWordFillers x.
Proof.
  intro H. unfold AnalyzeAnswers.arrayIncludes, AnalyzeAnswers.fillerWords,
    oneWordFillers.
  cbn [existsb]. rewrite (not_you_know x H). reflexivity.
Qed.

Lemma removeAll_allUnits (cls : ascii -> bool) (s : string) :
  allUnits cls s = true -> removeAll cls s = "".
Proof.
  induction s as [|c s IH]; [reflexivity|].
  cbn [allUnits removeAll]. intro H. apply andb_true_iff in H.
  destruct H as [-> H]. apply IH, H.
Qed.

Lemma stripTrailing_allUnits (cls : ascii -> bool) (s : string) :
  allUnits cls s = true -> stripTrailing cls s = "".
Proof.
  induction s as [|c s IH]; [reflexivity|].
  cbn [allUnits stripTrailing]. intro H. apply andb_true_iff in H.
  destruct H as [Hc H]. rewrite (IH H), Hc. reflexivity.
Qed.

Lemma stripTrailing_cons (cls : ascii -> bool) (c : ascii) (s : string) :
  cls c = false ->
  stripTrailing cls (String c s) = String c (stripTrailing cls s).
Proof.
  intro H. cbn [stripTrailing]. rewrite H.
  destruct (stripTrailing cls s); reflexivity.
Qed.

Lemma removeAll_stripTrailing (w : string) :
  punctuationOnlyAtEnd w = true ->
  removeAll AnalyzeAnswers.isPunctuation w
  = stripTrailing AnalyzeAnswers.isPunctuation w.
Proof.
  induction w as [|c w IH]; [reflexivity|].
  cbn [punctuationOnlyAtEnd].
  destruct (AnalyzeAnswers.isPunctuation c) eqn:Ec; intro H.
  - rewrite removeAll_allUnits, stripTrailing_allUnits;
      cbn [allUnits]; rewrite ?Ec, ?H; reflexivity.
  - rewrite (stripTrailing_cons _ _ _ Ec). cbn [removeAll]. rewrite Ec.
    f_equal. apply IH, H.
Qed.

Lemma allUnits_toLowerCase (w : string) :
  allUnits AnalyzeAnswers.isPunctuation (toLowerCase w)
  = allUnits AnalyzeAnswers.isPunctuation w.
Proof.
  induction w as [|c w IH]; [reflexivity|].
  cbn [toLowerCase allUnits]. rewrite toLowerUnit_punctuation, IH.
  reflexivity.
Qed.

Lemma punctuationOnlyAtEnd_toLowerCase (w : string) :
  punctuationOnlyAtEnd (toLowerCase w) = punctuationOnlyAtEnd w.
Proof.
  induction w as [|c w IH]; [reflexivity|].
  cbn [toLowerCase punctuationOnlyAtEnd].
  rewrite toLowerUnit_punctuation, allUnits_toLowerCase, IH. reflexivity.
Qed.

End Tokens.

(** C8, as the specification states it, at the transcript "u.m": stripping
    trailing punctuation leaves the token "u.m", which is no filler, so the
    count in the words of the specification is 0; the code removes the
    full stop inside the token and counts 1. *)
Lemma trailing_strip_count_differs :
  AnalyzeAnswers.fillerWordCount "u.m"
  <> FillerReading.trailingStripCount "u.m".
Proof. vm_compute. discriminate. Qed.

(** C8, as the code computes it: the filler count of a transcript is the
    number of its whitespace tokens that, lower-cased and with every
    [.], [,], [!] and [?] removed wherever it stands, are one of the eight
    one-word fillers; the two-word entry of the table never matches a
    token.  On a transcript whose tokens have these marks at their end
    only, this is the count after stripping trailing punctuation. *)
Theorem fillerWordCount_counts (transcript : string) :
  AnalyzeAnswers.fillerWordCount transcript
  = List.length
      (filter (fun w => AnalyzeAnswers.arrayIncludes
                          FillerReading.oneWordFillers
                          (removeAll AnalyzeAnswers.isPunctuation
                                     (toLowerCase w)))
              (AnalyzeAnswers.words transcript))
  /\ (forallb FillerReading.punctuationOnlyAtEnd
              (AnalyzeAnswers.words transcript) = true ->
      AnalyzeAnswers.fillerWordCount transcript
      = FillerReading.trailingStripCount transcript).
Proof.
  unfold AnalyzeAnswers.fillerWordCount, FillerReading.trailingStripCount.
  split.
  - f_equal. apply filter_ext_in. intros w Hw.
    unfold AnalyzeAnswers.isFillerToken.
    apply one_word_table, normalised_no_whitespace.
    apply (words_no_whitespace transcript w Hw).
  - intro H. f_equal. apply filter_ext_in. intros w Hw.
    unfold AnalyzeAnswers.isFillerToken.
    rewrite forallb_forall in H. specialize (H w Hw).
    rewrite removeAll_stripTrailing; [reflexivity|].
    rewrite punctuationOnlyAtEnd_toLowerCase. exact H.
Qed.

Lemma fillerWordCount_counts_witness :
  AnalyzeAnswers.fillerWordCount "Um, well... it is LIKE a queue!"
  = FillerReading.trailingStripCount "Um, well... it is LIKE a queue!".
Proof.
  apply (proj2 (fillerWordCount_counts "Um, well... it is LIKE a queue!")).
  vm_compute. reflexivity.
Defined.

(** ** The voice scenario, with the filler tokens of the specification *)

Lemma fillerWordCount_trailing (transcript : string) :
  forallb FillerReading.punctuationOnlyAtEnd
          (AnalyzeAnswers.words transcript) = true ->
  AnalyzeAnswers.fillerWordCount transcript
  = FillerReading.trailingStripCount transcript.
Proof.
  intro Hend.
  unfold AnalyzeAnswers.fillerWordCount, FillerReading.trailingStripCount.
  f_equal. apply filter_ext_in. intros w Hw.
  unfold AnalyzeAnswers.isFillerToken.
  rewrite forallb_forall in Hend.
  rewrite removeAll_stripTrailing; [reflexivity|].
  rewrite punctuationOnlyAtEnd_toLowerCase. apply Hend, Hw.
Qed.

(** C6, as the specification states it, at a transcript of 67 tokens of
    which exactly 3 are filler tokens (equal to a filler after stripping
    trailing punctuation) and one is [u.m]: the code removes the full stop
    inside that token too and counts it as a fourth filler, so the filler
    ratio is 4/67 and the confidence score is 85. *)
Lemma voice_scenario_as_stated_fails :
  let t := Scenario.transcript67InnerMark in
  ~ (AnalyzeAnswers.wordCount t = 67%nat ->
     FillerReading.trailingStripCount t = 3%nat ->
     AnalyzeAnswers.wordsPerMinute t = 134%nat
     /\ AnalyzeAnswers.rateScore t == 99.5
     /\ AnalyzeAnswers.fillerRatio t == 3 / 67
     /\ 77.6 <= AnalyzeAnswers.fillerScore t < 77.65
     /\ AnalyzeAnswers.confidenceScore t 8 = 87%Z).
Proof.
  cbv zeta. intro H.
  assert (Hw : AnalyzeAnswers.wordCount Scenario.transcript67InnerMark
               = 67%nat) by (vm_compute; reflexivity).
  assert (Hf : FillerReading.trailingStripCount Scenario.transcript67InnerMark
               = 3%nat) by (vm_compute; reflexivity).
  destruct (H Hw Hf) as (_ & _ & _ & _ & Hc).
  vm_compute in Hc. discriminate Hc.
Qed.

(** C6, as the code computes it: for every transcript of 67 tokens of
    which exactly 3 are filler tokens (equal to a filler after stripping
    trailing punctuation), and in which the marks [.], [,], [!] and [?]
    stand at the end of tokens only, the code counts these 3 fillers, the
    estimated rate is 134 words per minute, the rate score is 99.5, the
    filler ratio is 3/67, the filler score is 77.6 to one decimal, and with
    a clarity of 8 the confidence score is 87, the rounding of
    99.5 * 0.4 + 77.6 * 0.3 + 80 * 0.3. *)
Theorem voice_scenario (transcript : string) :
  AnalyzeAnswers.wordCount transcript = 67%nat ->
  FillerReading.trailingStripCount transcript = 3%nat ->
  forallb FillerReading.punctuationOnlyAtEnd
          (AnalyzeAnswers.words transcript) = true ->
  AnalyzeAnswers.fillerWordCount transcript = 3%nat
  /\ AnalyzeAnswers.wordsPerMinute transcript = 134%nat
  /\ AnalyzeAnswers.rateScore transcript == 99.5
  /\ AnalyzeAnswers.fillerRatio transcript == 3 / 67
  /\ 77.6 <= AnalyzeAnswers.fillerScore transcript < 77.65
  /\ AnalyzeAnswers.confidenceScore transcript 8 = 87%Z
  /\ round (99.5 * 0.4 + 77.6 * 0.3 + 80 * 0.3) = 87%Z
  /\ AnalyzeAnswers.voiceAnalytics (Some transcript) 8
     = AnalyzeAnswers.mkVoiceMetrics 87 134 3.
Proof.
  intros Hw Hf Hend.
  assert (Hcode : AnalyzeAnswers.fillerWordCount transcript = 3%nat)
    by (rewrite (fillerWordCount_trailing transcript Hend); exact Hf).
  split; [exact Hcode|].
  apply voice_metrics_from_counts; assumption.
Qed.

Lemma voice_scenario_witness :
  AnalyzeAnswers.voiceAnalytics (Some Scenario.transcript67) 8
  = AnalyzeAnswers.mkVoiceMetrics 87 134 3.
Proof.
  apply (voice_scenario Scenario.transcript67); vm_compute; reflexivity.
Defined.

End Properties.

(* ================================================================== *)
(** * Further properties of [scoreAnswer]                              *)
(* ================================================================== *)

Section ScoreAnswerFacts.
Import JS.
Local Open Scope Q_scope.

(** ** Whole-number dimensions *)

Lemma round1_whole (z : Z) : round1 (inject_Z z) == inject_Z z.
Proof.
  unfold round1.
  assert (R : round (inject_Z z * 10) = (z * 10)%Z).
  { rewrite <- (round_Z (z * 10)). unfold round. apply Qfloor_comp.
    rewrite inject_Z_mult. reflexivity. }
  rewrite R, inject_Z_mult. field.
Qed.

Lemma structureScore_whole (answerText : string) :
  exists n : Z, (5 <= n <= 10)%Z /\ structureScore answerText == inject_Z n.
Proof.
  unfold structureScore.
  destruct (3 <=? _)%nat; [|destruct (2 <=? _)%nat];
    destruct (_ || _ || _); destruct (hasTransitions _);
    match goal with
    | |- exists n, _ /\ ?x == _ =>
        let v := eval vm_compute in (Qfloor x) in
        exists v; split; [lia | vm_compute; reflexivity]
    end.
Qed.

Lemma clarityFrom_whole (avg : Q) (fillers : nat) :
  exists n : Z, (5 <= n <= 10)%Z /\ clarityFrom avg fillers == inject_Z n.
Proof.
  unfold clarityFrom, fillerStep, sentenceLengthStep.
  destruct (geb avg 10 && leb avg 30); [|destruct (ltb avg 10)];
    (destruct (fillers =? 0)%nat; [|destruct (5 <? fillers)%nat]);
    match goal with
    | |- exists n, _ /\ ?x == _ =>
        let v := eval vm_compute in (Qfloor x) in
        exists v; split; [lia | vm_compute; reflexivity]
    end.
Qed.

(** The structure and the clarity score are whole numbers from 5 to 10, so
    rounding to one decimal leaves them as they are: the two fields
    report the scores themselves. *)
Theorem structure_clarity_reported_exactly
    (answerText : string) (expectedKeywords : list string) (idealLength : Q) :
  let fb := scoreAnswer answerText expectedKeywords idealLength in
  (exists n : Z, (5 <= n <= 10)%Z /\ structure fb == inject_Z n
                 /\ structureScore answerText == inject_Z n)
  /\ (exists m : Z, (5 <= m <= 10)%Z /\ clarity fb == inject_Z m
                    /\ clarityScore answerText == inject_Z m).
Proof.
  cbv zeta.
  destruct (scoreAnswer_fields answerText expectedKeywords idealLength)
    as (_ & _ & -> & ->).
  split.
  - destruct (structureScore_whole answerText) as (n & Hn & E).
    exists n. repeat split; try lia; [|exact E].
    rewrite (round1_comp _ _ E). apply round1_whole.
  - destruct (clarityFrom_whole (avgSentenceLength answerText)
                                (fillerCount answerText)) as (m & Hm & E).
    exists m. repeat split; try lia; [|exact E].
    unfold clarityScore. rewrite (round1_comp _ _ E). apply round1_whole.
Qed.

(** ** Keywords *)

Lemma startsWith_iff (needle s : string) :
  startsWith s needle = true <-> exists post, s = (needle ++ post)%string.
Proof.
  revert s. induction needle as [|a needle IH]; intro s.
  - split; [intros _; exists s; reflexivity | destruct s; reflexivity].
  - destruct s as [|b s]; cbn [startsWith append].
    + split; [discriminate | intros [post H]; discriminate H].
    + rewrite andb_true_iff, Ascii.eqb_eq, IH. split.
      * intros [-> [post ->]]. exists post. reflexivity.
      * intros [post H]. injection H as -> ->. split; [reflexivity|].
        exists post. reflexivity.
Qed.

Lemma includes_iff (s needle : string) :
  includes s needle = true
  <-> exists pre post, s = (pre ++ needle ++ post)%string.
Proof.
  split.
  - induction s as [|c s IH]; cbn [includes]; rewrite orb_true_iff.
    + intros [H|H]; [|discriminate H].
      apply startsWith_iff in H. destruct H as [post ->].
      exists EmptyString, post. reflexivity.
    + intros [H|H].
      * apply startsWith_iff in H. destruct H as [post ->].
        exists EmptyString, post. reflexivity.
      * destruct (IH H) as (pre & post & ->).
        exists (String c pre), post. reflexivity.
  - intros (pre & post & ->).
    induction pre as [|c pre IH].
    + cbn [append].
      assert (H : startsWith (needle ++ post) needle = true)
        by (apply startsWith_iff; exists post; reflexivity).
      destruct (needle ++ post)%string; cbn [includes]; rewrite H;
        reflexivity.
    + cbn [append includes]. rewrite IH. apply orb_true_r.
Qed.

(** A keyword of the rubric counts as matched exactly when its lower-case
    form occurs, as one contiguous piece, in the lower-cased and trimmed
    answer. *)
Theorem matched_iff_substring
    (answerText : string) (expectedKeywords : list string) (kw : string) :
  In kw (matchedKeywords answerText expectedKeywords)
  <-> In kw expectedKeywords
      /\ exists pre post,
           answer answerText = (pre ++ toLowerCase kw ++ post)%string.
Proof.
  unfold matchedKeywords. rewrite filter_In, includes_iff. reflexivity.
Qed.

Lemma matched_iff_substring_witness :
  In "Sorted" (matchedKeywords "  An UNSORTED array " ["Heap"; "Sorted"]).
Proof.
  apply (proj2 (matched_iff_substring "  An UNSORTED array "
                                      ["Heap"; "Sorted"]%string "Sorted")).
  split.
  - right. left. reflexivity.
  - exists "an un"%string, " array"%string. reflexivity.
Defined.

Lemma ratio_extend_matched (m n : nat) :
  (m <= n)%nat -> (0 < n)%nat -> num m / num n <= num (S m) / num (S n).
Proof.
  intros Hmn Hn. pose proof (num_pos n Hn) as Hp.
  pose proof (num_le m n Hmn) as Hle. pose proof (num_nonneg m) as Hm.
  assert (HS : forall k, num (S k) == num k + 1).
  { intro k. unfold num. rewrite Nat2Z.inj_succ, <- Z.add_1_r, inject_Z_plus.
    reflexivity. }
  rewrite !HS.
  apply Qle_shift_div_l; [lra|].
  assert (E : num m / num n * (num n + 1) == num m + num m / num n)
    by (field; lra).
  rewrite E.
  assert (R : num m / num n <= 1) by (apply Qle_shift_div_r; lra).
  lra.
Qed.

Lemma ratio_extend_unmatched (m n : nat) :
  (0 < n)%nat -> num m / num (S n) <= num m / num n.
Proof.
  intros Hn. pose proof (num_pos n Hn) as Hp.
  pose proof (num_nonneg m) as Hm.
  assert (HS : num (S n) == num n + 1).
  { unfold num. rewrite Nat2Z.inj_succ, <- Z.add_1_r, inject_Z_plus.
    reflexivity. }
  rewrite HS.
  apply Qle_shift_div_r; [lra|].
  assert (E : num m / num n * (num n + 1) == num m + num m / num n)
    by (field; lra).
  rewrite E.
  assert (R : 0 <= num m / num n) by (apply Qle_shift_div_l; lra).
  lra.
Qed.

Lemma keywordRatio_cons (answerText kw : string) (kws : list string) :
  (includes (answer answerText) (toLowerCase kw) = true ->
   keywordRatio answerText kws <= keywordRatio answerText (kw :: kws))
  /\ (includes (answer answerText) (toLowerCase kw) = false ->
      kws <> [] ->
      keywordRatio answerText (kw :: kws) <= keywordRatio answerText kws).
Proof.
  assert (Hcons : keywordRatio answerText (kw :: kws)
                  = num (List.length (matchedKeywords answerText (kw :: kws)))
                    / num (S (List.length kws))) by reflexivity.
  rewrite Hcons. unfold keywordRatio, matchedKeywords. cbn [filter].
  set (m := List.length
              (filter (fun k => includes (answer answerText) (toLowerCase k))
                      kws)).
  assert (Hm : (m <= List.length kws)%nat) by apply filter_length_le.
  split.
  - intro H. rewrite H. cbn [List.length]. fold m.
    destruct (Nat.ltb_spec 0 (List.length kws)) as [Hn|Hn].
    + apply ratio_extend_matched; assumption.
    + apply Qle_shift_div_l; [apply num_pos; lia|].
      pose proof (num_nonneg (S m)). lra.
  - intros H Hne. rewrite H. fold m.
    destruct (Nat.ltb_spec 0 (List.length kws)) as [Hn|Hn].
    + apply ratio_extend_unmatched. exact Hn.
    + destruct kws; [congruence | cbn [List.length] in Hn; lia].
Qed.

(** Adding to the rubric a keyword that the answer contains never lowers
    the technical accuracy or the score; adding one that the answer does
    not contain, to a rubric that already has a keyword, never raises
    them. *)
Theorem extending_the_rubric
    (answerText kw : string) (expectedKeywords : list string)
    (idealLength : Q) :
  let before := scoreAnswer answerText expectedKeywords idealLength in
  let after := scoreAnswer answerText (kw :: expectedKeywords) idealLength in
  (includes (answer answerText) (toLowerCase kw) = true ->
   technical_accuracy before <= technical_accuracy after
   /\ score before <= score after)
  /\ (includes (answer answerText) (toLowerCase kw) = false ->
      expectedKeywords <> [] ->
      technical_accuracy after <= technical_accuracy before
      /\ score after <= score before).
Proof.
  cbv zeta.
  destruct (keywordRatio_cons answerText kw expectedKeywords) as [Up Down].
  destruct (scoreAnswer_fields answerText expectedKeywords idealLength)
    as (-> & -> & _ & _).
  destruct (scoreAnswer_fields answerText (kw :: expectedKeywords) idealLength)
    as (-> & -> & _ & _).
  split.
  - intro H. specialize (Up H).
    split; apply round1_mono; unfold totalScore, weighted, keywordScore; lra.
  - intros H Hne. specialize (Down H Hne).
    split; apply round1_mono; unfold totalScore, weighted, keywordScore; lra.
Qed.

Lemma extending_the_rubric_witness :
  score (scoreAnswer "a sorted array" ["array"] 40)
  <= score (scoreAnswer "a sorted array" ["sorted"; "array"] 40)
  /\ score (scoreAnswer "a sorted array" ["heap"; "array"] 40)
     <= score (scoreAnswer "a sorted array" ["array"] 40).
Proof.
  split.
  - apply (proj1 (extending_the_rubric "a sorted array" "sorted"
                                       ["array"]%string 40)).
    reflexivity.
  - apply (proj2 (extending_the_rubric "a sorted array" "heap"
                                       ["array"]%string 40)).
    + reflexivity.
    + discriminate.
Defined.

(** ** Size of the feedback *)

Ltac feedback_sizes :=
  repeat match goal with
         | |- context [if ?b then _ else _] => destruct b
         end;
  cbn [strengthsArr weaknessesArr suggestionsArr
       pushStrength pushWeakness pushSuggestion];
  rewrite ?length_app; cbn [List.length]; lia.

Lemma keywordFeedback_sizes (answerText : string) (kws : list string)
    (ratio : Q) (a : Arrays) :
  let a' := keywordFeedback answerText kws ratio a in
  (List.length (strengthsArr a') + List.length (weaknessesArr a')
   = List.length (strengthsArr a) + List.length (weaknessesArr a) + 1)%nat
  /\ (List.length (suggestionsArr a') + List.length (weaknessesArr a)
      <= List.length (suggestionsArr a) + List.length (weaknessesArr a'))%nat.
Proof. cbv zeta. unfold keywordFeedback. cbv zeta. feedback_sizes. Qed.

Lemma lengthFeedback_sizes (wc : nat) (idealLength : Q) (a : Arrays) :
  let a' := lengthFeedback wc idealLength a in
  (List.length (strengthsArr a) + List.length (weaknessesArr a)
   <= List.length (strengthsArr a') + List.length (weaknessesArr a')
   <= List.length (strengthsArr a) + List.length (weaknessesArr a) + 1)%nat
  /\ (List.length (suggestionsArr a') + List.length (weaknessesArr a)
      <= List.length (suggestionsArr a) + List.length (weaknessesArr a'))%nat.
Proof. cbv zeta. unfold lengthFeedback. cbv zeta. feedback_sizes. Qed.

Lemma structureFeedback_sizes (st : Q) (a : Arrays) :
  let a' := structureFeedback st a in
  (List.length (strengthsArr a) + List.length (weaknessesArr a)
   <= List.length (strengthsArr a') + List.length (weaknessesArr a')
   <= List.length (strengthsArr a) + List.length (weaknessesArr a) + 1)%nat
  /\ (List.length (suggestionsArr a') + List.length (weaknessesArr a)
      <= List.length (suggestionsArr a) + List.length (weaknessesArr a'))%nat.
Proof. cbv zeta. unfold structureFeedback. feedback_sizes. Qed.

Lemma clarityFeedback_sizes (cl : Q) (fillers : nat) (a : Arrays) :
  let a' := clarityFeedback cl fillers a in
  (List.length (strengthsArr a) + List.length (weaknessesArr a)
   <= List.length (strengthsArr a') + List.length (weaknessesArr a')
   <= List.length (strengthsArr a) + List.length (weaknessesArr a) + 1)%nat
  /\ (List.length (suggestionsArr a') + List.length (weaknessesArr a)
      <= List.length (suggestionsArr a) + List.length (weaknessesArr a'))%nat.
Proof. cbv zeta. unfold clarityFeedback. feedback_sizes. Qed.

(** Every result carries between one and four verdicts, strengths and
    weaknesses taken together (the keyword check always gives one, each of
    the other three checks at most one), and never more suggestions than
    weaknesses. *)
Theorem feedback_sizes_bounded
    (answerText : string) (expectedKeywords : list string) (idealLength : Q) :
  let fb := scoreAnswer answerText expectedKeywords idealLength in
  (1 <= List.length (strengths fb) + List.length (weaknesses fb) <= 4)%nat
  /\ (List.length (suggestions fb) <= List.length (weaknesses fb))%nat.
Proof.
  cbv zeta. unfold scoreAnswer, report.
  cbn [strengths weaknesses suggestions].
  set (a0 := mkArrays [] [] []).
  set (a1 := keywordFeedback answerText expectedKeywords
               (keywordRatio answerText expectedKeywords) a0).
  set (a2 := lengthFeedback (wordCount answerText) idealLength a1).
  set (a3 := structureFeedback (structureScore answerText) a2).
  pose proof (keywordFeedback_sizes answerText expectedKeywords
                (keywordRatio answerText expectedKeywords) a0) as H1.
  pose proof (lengthFeedback_sizes (wordCount answerText) idealLength a1)
    as H2.
  pose proof (structureFeedback_sizes (structureScore answerText) a2) as H3.
  pose proof (clarityFeedback_sizes (clarityScore answerText)
                (fillerCount answerText) a3) as H4.
  cbv zeta in H1, H2, H3, H4. fold a1 in H1. fold a2 in H2. fold a3 in H3.
  change (List.length (strengthsArr a0)) with 0%nat in H1.
  change (List.length (weaknessesArr a0)) with 0%nat in H1.
  change (List.length (suggestionsArr a0)) with 0%nat in H1.
  lia.
Qed.

(** ** An empty rubric *)

Ltac feedback_grows :=
  repeat match goal with
         | |- context [if ?b then _ else _] => destruct b
         end;
  cbn [strengthsArr weaknessesArr suggestionsArr
       pushStrength pushWeakness pushSuggestion];
  rewrite ?in_app_iff; tauto.

Lemma lengthFeedback_grows (wc : nat) (idealLength : Q) (a : Arrays)
    (x : string) :
  let a' := lengthFeedback wc idealLength a in
  (In x (weaknessesArr a) -> In x (weaknessesArr a'))
  /\ (In x (suggestionsArr a) -> In x (suggestionsArr a')).
Proof. cbv zeta. unfold lengthFeedback. cbv zeta. feedback_grows. Qed.

Lemma structureFeedback_grows (st : Q) (a : Arrays) (x : string) :
  let a' := structureFeedback st a in
  (In x (weaknessesArr a) -> In x (weaknessesArr a'))
  /\ (In x (suggestionsArr a) -> In x (suggestionsArr a')).
Proof. cbv zeta. unfold structureFeedback. feedback_grows. Qed.

Lemma clarityFeedback_grows (cl : Q) (fillers : nat) (a : Arrays)
    (x : string) :
  let a' := clarityFeedback cl fillers a in
  (In x (weaknessesArr a) -> In x (weaknessesArr a'))
  /\ (In x (suggestionsArr a) -> In x (suggestionsArr a')).
Proof. cbv zeta. unfold clarityFeedback. feedback_grows. Qed.

(** With no keyword in the rubric (the rubric the handler uses when the
    question is not in the bank) the technical accuracy is 0, the score is
    at most 6.0, and the result has the weakness and the suggestion of an
    answer that misses most concepts, whatever the answer says. *)
Theorem empty_rubric (answerText : string) (idealLength : Q) :
  let fb := scoreAnswer answerText [] idealLength in
  technical_accuracy fb == 0
  /\ score fb <= 6
  /\ In msgManyMissing (weaknesses fb)
  /\ In msgReview (suggestions fb).
Proof.
  cbv zeta.
  destruct (scoreAnswer_fields answerText [] idealLength)
    as (Hs & Ht & _ & _).
  split; [rewrite Ht; vm_compute; reflexivity|].
  split.
  - rewrite Hs.
    pose proof (lengthScore_bounds answerText idealLength).
    pose proof (structureScore_bounds answerText).
    pose proof (clarityScore_bounds answerText).
    assert (K : keywordScore answerText [] == 0) by reflexivity.
    assert (T : totalScore answerText [] idealLength <= 6)
      by (unfold totalScore, weighted; lra).
    pose proof (totalScore_bounds answerText [] idealLength) as B.
    pose proof (round1_range 0 60 (totalScore answerText [] idealLength))
      as R.
    change (inject_Z 0) with 0 in R. change (inject_Z 60) with 60 in R.
    lra.
  - unfold scoreAnswer, report. cbn [weaknesses suggestions].
    change (keywordFeedback answerText [] (keywordRatio answerText [])
              (mkArrays [] [] []))
      with (mkArrays [] [msgManyMissing] [msgReview]).
    set (a1 := mkArrays [] [msgManyMissing] [msgReview]).
    set (a2 := lengthFeedback (wordCount answerText) idealLength a1).
    set (a3 := structureFeedback (structureScore answerText) a2).
    split.
    + apply clarityFeedback_grows, structureFeedback_grows,
        lengthFeedback_grows. left. reflexivity.
    + apply clarityFeedback_grows, structureFeedback_grows,
        lengthFeedback_grows. left. reflexivity.
Qed.

(** ** The length verdict and the length score *)

Ltac feedback_keeps :=
  repeat match goal with
         | |- context [if ?b then _ else _] => destruct b
         end;
  cbn [strengthsArr weaknessesArr suggestionsArr
       pushStrength pushWeakness pushSuggestion];
  rewrite ?in_app_iff; cbn [In];
  intuition (try discriminate).

Lemma keywordFeedback_keeps_length (answerText : string) (kws : list string)
    (ratio : Q) (a : Arrays) :
  let a' := keywordFeedback answerText kws ratio a in
  (In msgTooBrief (weaknessesArr a') <-> In msgTooBrief (weaknessesArr a))
  /\ (In msgTooLong (weaknessesArr a') <-> In msgTooLong (weaknessesArr a))
  /\ (In msgGoodLength (strengthsArr a')
      <-> In msgGoodLength (strengthsArr a)).
Proof.
  cbv zeta. unfold keywordFeedback. cbv zeta. feedback_keeps.
Qed.

Lemma structureFeedback_keeps_length (st : Q) (a : Arrays) :
  let a' := structureFeedback st a in
  (In msgTooBrief (weaknessesArr a') <-> In msgTooBrief (weaknessesArr a))
  /\ (In msgTooLong (weaknessesArr a') <-> In msgTooLong (weaknessesArr a))
  /\ (In msgGoodLength (strengthsArr a')
      <-> In msgGoodLength (strengthsArr a)).
Proof.
  cbv zeta. unfold structureFeedback. feedback_keeps.
Qed.

Lemma clarityFeedback_keeps_length (cl : Q) (fillers : nat) (a : Arrays) :
  let a' := clarityFeedback cl fillers a in
  (In msgTooBrief (weaknessesArr a') <-> In msgTooBrief (weaknessesArr a))
  /\ (In msgTooLong (weaknessesArr a') <-> In msgTooLong (weaknessesArr a))
  /\ (In msgGoodLength (strengthsArr a')
      <-> In msgGoodLength (strengthsArr a)).
Proof.
  cbv zeta. unfold clarityFeedback. feedback_keeps.
Qed.

Ltac in_cases H :=
  rewrite ?in_app_iff in H; cbn [In] in H;
  repeat (destruct H as [H|H]); try contradiction; try discriminate H.

Ltac length_verdicts :=
  cbn [strengthsArr weaknessesArr suggestionsArr
       pushStrength pushWeakness pushSuggestion];
  repeat match goal with |- _ /\ _ => split end;
  (split;
   [ let H := fresh "H" in
     intro H; in_cases H; first [lra | reflexivity]
   | let H := fresh "H" in
     intro H;
     first [ exfalso; lra
           | rewrite ?in_app_iff; cbn [In]; intuition reflexivity ] ]).

(** The length block alone, against the length score.  The two test the
    bands in different orders; for a word count, which is not negative,
    they come to the same. *)
Lemma lengthFeedback_adds (answerText : string) (idealLength : Q)
    (a : Arrays) :
  ~ In msgTooBrief (weaknessesArr a) ->
  ~ In msgTooLong (weaknessesArr a) ->
  ~ In msgGoodLength (strengthsArr a) ->
  let a' := lengthFeedback (wordCount answerText) idealLength a in
  (In msgTooBrief (weaknessesArr a')
   <-> lengthScore answerText idealLength < 6)
  /\ (In msgTooLong (weaknessesArr a')
      <-> lengthScore answerText idealLength == 7)
  /\ (In msgGoodLength (strengthsArr a')
      <-> lengthScore answerText idealLength == 10).
Proof.
  intros Hb Hl Hg. cbv zeta. unfold lengthFeedback, lengthScore. cbv zeta.
  pose proof (num_nonneg (wordCount answerText)) as Hwc.
  set (wc := num (wordCount answerText)) in *.
  cmp_cases (ltb wc (idealLength * 0.5)).
  - assert (Hh : 0 < idealLength * 0.5) by lra.
    assert (Q1 : 0 <= wc / (idealLength * 0.5))
      by (apply Qle_shift_div_l; lra).
    assert (Q2 : wc / (idealLength * 0.5) < 1)
      by (apply Qlt_shift_div_r; lra).
    length_verdicts.
  - cmp_cases (geb wc (idealLength * 0.8));
      cmp_cases (leb wc (idealLength * 1.5));
      cmp_cases (gtb wc (idealLength * 2));
      cbn [andb]; try (exfalso; lra); length_verdicts.
Qed.

(** The length verdicts follow the length score, for every ideal length:
    "too brief" is reported exactly when the length score is below 6,
    "longer than necessary" exactly when it is 7, and "good answer length"
    exactly when it is 10. *)
Theorem length_verdict_follows_score
    (answerText : string) (expectedKeywords : list string) (idealLength : Q) :
  let fb := scoreAnswer answerText expectedKeywords idealLength in
  (In msgTooBrief (weaknesses fb)
   <-> lengthScore answerText idealLength < 6)
  /\ (In msgTooLong (weaknesses fb)
      <-> lengthScore answerText idealLength == 7)
  /\ (In msgGoodLength (strengths fb)
      <-> lengthScore answerText idealLength == 10).
Proof.
  cbv zeta. unfold scoreAnswer, report.
  cbn [strengths weaknesses suggestions].
  set (a0 := mkArrays [] [] []).
  set (a1 := keywordFeedback answerText expectedKeywords
               (keywordRatio answerText expectedKeywords) a0).
  set (a2 := lengthFeedback (wordCount answerText) idealLength a1).
  set (a3 := structureFeedback (structureScore answerText) a2).
  destruct (keywordFeedback_keeps_length answerText expectedKeywords
              (keywordRatio answerText expectedKeywords) a0) as (B1 & L1 & G1).
  destruct (structureFeedback_keeps_length (structureScore answerText) a2)
    as (B3 & L3 & G3).
  destruct (clarityFeedback_keeps_length (clarityScore answerText)
              (fillerCount answerText) a3) as (B4 & L4 & G4).
  fold a1 in B1, L1, G1. fold a3 in B3, L3, G3.
  rewrite B4, L4, G4, B3, L3, G3.
  apply lengthFeedback_adds.
  - rewrite B1. exact (fun x => x).
  - rewrite L1. exact (fun x => x).
  - rewrite G1. exact (fun x => x).
Qed.

Lemma length_verdict_follows_score_witness :
  In msgTooBrief (weaknesses (scoreAnswer "A stack." ["stack"] 40)).
Proof.
  apply (proj2 (proj1 (length_verdict_follows_score "A stack."
                                                    ["stack"]%string 40))).
  vm_compute. reflexivity.
Defined.

(** ** Case and surrounding white space *)

Lemma toLowerUnit_idem (c : ascii) : toLowerUnit (toLowerUnit c) = toLowerUnit c.
Proof. destruct c as [[] [] [] [] [] [] [] []]; reflexivity. Qed.

Lemma toLowerCase_idem (s : string) :
  toLowerCase (toLowerCase s) = toLowerCase s.
Proof.
  induction s as [|c s IH]; [reflexivity|].
  cbn [toLowerCase]. rewrite toLowerUnit_idem, IH. reflexivity.
Qed.

Lemma trimStart_toLowerCase (s : string) :
  trimStart (toLowerCase s) = toLowerCase (trimStart s).
Proof.
  induction s as [|c s IH]; [reflexivity|].
  cbn [toLowerCase trimStart]. rewrite toLowerUnit_whitespace.
  destruct (isWhiteSpace c); [exact IH | reflexivity].
Qed.

Lemma trimEnd_toLowerCase (s : string) :
  trimEnd (toLowerCase s) = toLowerCase (trimEnd s).
Proof.
  induction s as [|c s IH]; [reflexivity|].
  cbn [toLowerCase trimEnd]. rewrite IH, toLowerUnit_whitespace.
  destruct (trimEnd s); cbn [toLowerCase]; [|reflexivity].
  destruct (isWhiteSpace c); reflexivity.
Qed.

Lemma trim_toLowerCase (s : string) :
  trim (toLowerCase s) = toLowerCase (trim s).
Proof.
  unfold trim. rewrite trimStart_toLowerCase. apply trimEnd_toLowerCase.
Qed.

Lemma trimEnd_idem (s : string) : trimEnd (trimEnd s) = trimEnd s.
Proof.
  induction s as [|c s IH]; [reflexivity|].
  cbn [trimEnd]. destruct (trimEnd s) as [|d t] eqn:E.
  - destruct (isWhiteSpace c) eqn:Ec; [reflexivity|].
    cbn [trimEnd]. rewrite Ec. reflexivity.
  - cbn [trimEnd]. cbn [trimEnd] in IH.
    destruct (trimEnd t) as [|e u].
    + destruct (isWhiteSpace d); [discriminate IH|]. rewrite IH. reflexivity.
    + rewrite IH. reflexivity.
Qed.

(** What [trimStart] returns is empty or starts with a character that is
    no white space, and so does what [trimEnd] makes of it. *)
Lemma trimStart_head (s : string) (c : ascii) (r : string) :
  trimStart s = String c r -> isWhiteSpace c = false.
Proof.
  induction s as [|d s IH]; cbn [trimStart]; [discriminate|].
  destruct (isWhiteSpace d) eqn:Ed; [exact IH|].
  intro H. injection H as <- _. exact Ed.
Qed.

Lemma trimEnd_head (c : ascii) (r : string) :
  isWhiteSpace c = false -> exists r', trimEnd (String c r) = String c r'.
Proof.
  intro Ec. cbn [trimEnd]. destruct (trimEnd r) as [|d t].
  - rewrite Ec. exists EmptyString. reflexivity.
  - exists (String d t). reflexivity.
Qed.

Lemma trim_head (s : string) (c : ascii) (r : string) :
  trim s = String c r -> isWhiteSpace c = false.
Proof.
  unfold trim. destruct (trimStart s) as [|d u] eqn:E; [discriminate|].
  pose proof (trimStart_head s d u E) as Ed.
  destruct (trimEnd_head d u Ed) as [r' ->].
  intro H. injection H as <- _. exact Ed.
Qed.

Lemma trimStart_clean (s : string) :
  match s with
  | EmptyString => True
  | String c _ => isWhiteSpace c = false
  end ->
  trimStart s = s.
Proof.
  destruct s as [|c r]; [reflexivity|].
  intro H. cbn [trimStart]. rewrite H. reflexivity.
Qed.

Lemma trim_idem (s : string) : trim (trim s) = trim s.
Proof.
  assert (H : trimStart (trim s) = trim s).
  { apply trimStart_clean. destruct (trim s) as [|c r] eqn:E; [exact I|].
    apply (trim_head s c r E). }
  unfold trim at 1. rewrite H. unfold trim. apply trimEnd_idem.
Qed.

Lemma answer_toLowerCase (answerText : string) :
  answer (toLowerCase answerText) = answer answerText.
Proof. unfold answer. rewrite toLowerCase_idem. reflexivity. Qed.

Lemma answer_trim (answerText : string) :
  answer (trim answerText) = answer answerText.
Proof.
  unfold answer. rewrite <- trim_toLowerCase. apply trim_idem.
Qed.

Lemma scoreAnswer_by_answer (a b : string) (kws : list string)
    (idealLength : Q) :
  answer a = answer b ->
  scoreAnswer a kws idealLength = scoreAnswer b kws idealLength.
Proof.
  intro H.
  unfold scoreAnswer, report, keywordFeedback, keywordRatio, matchedKeywords,
    lengthScore, structureScore, hasTransitions, clarityScore,
    avgSentenceLength, fillerCount, wordCount, words, sentences.
  rewrite H. reflexivity.
Qed.

(** The result does not depend on the case of the answer's letters nor on
    white space before and after it: the lower-cased answer and the
    trimmed answer get the record of the answer itself. *)
Theorem case_and_margins_ignored
    (answerText : string) (expectedKeywords : list string) (idealLength : Q) :
  scoreAnswer (toLowerCase answerText) expectedKeywords idealLength
  = scoreAnswer answerText expectedKeywords idealLength
  /\ scoreAnswer (trim answerText) expectedKeywords idealLength
     = scoreAnswer answerText expectedKeywords idealLength.
Proof.
  split; apply scoreAnswer_by_answer.
  - apply answer_toLowerCase.
  - apply answer_trim.
Qed.

(** ** Blank answers *)

Lemma trim_blank (s : string) :
  trim s = "" -> trim (toLowerCase s) = "".
Proof. intro H. rewrite trim_toLowerCase, H. reflexivity. Qed.

(** A split at runs of a class, started outside a run with a non-empty
    fragment in hand, yields a non-empty fragment. *)
Lemma splitRunsFrom_keeps_fragment (cls : ascii -> bool) (s : string) :
  forall cur : string,
    cur <> "" ->
    exists w, In w (splitRunsFrom cls false cur s) /\ w <> "".
Proof.
  induction s as [|c s IH]; intros cur Hcur.
  - exists cur. split; [left; reflexivity | exact Hcur].
  - cbn [splitRunsFrom]. destruct (cls c).
    + exists cur. split; [left; reflexivity | exact Hcur].
    + apply IH. destruct cur; discriminate.
Qed.

Lemma nonEmpty_iff (w : string) : nonEmpty w = true <-> w <> "".
Proof.
  destruct w; cbn; split; try congruence; try discriminate; reflexivity.
Qed.

Lemma wordCount_zero_iff (answerText : string) :
  wordCount answerText = 0%nat <-> trim answerText = "".
Proof.
  split.
  - intro H. destruct (trim answerText) as [|c r] eqn:E; [reflexivity|].
    exfalso.
    pose proof (trim_head answerText c r E) as Hc.
    assert (Ha : answer answerText = String (toLowerUnit c) (toLowerCase r))
      by (unfold answer; rewrite trim_toLowerCase, E; reflexivity).
    unfold wordCount, words, splitRuns in H. rewrite Ha in H.
    cbn [splitRunsFrom] in H. rewrite toLowerUnit_whitespace, Hc in H.
    destruct (splitRunsFrom_keeps_fragment isWhiteSpace (toLowerCase r)
                ("" ++ String (toLowerUnit c) "")) as (w & Hin & Hw);
      [discriminate|].
    apply nonEmpty_iff in Hw.
    assert (Hf : In w (filter nonEmpty
                         (splitRunsFrom isWhiteSpace false
                            ("" ++ String (toLowerUnit c) "")
                            (toLowerCase r))))
      by (apply filter_In; split; assumption).
    destruct (filter nonEmpty _); [destruct Hf | discriminate H].
  - intro H. unfold wordCount, words, answer.
    rewrite (trim_blank _ H). reflexivity.
Qed.

(** An answer has no word exactly when it is blank, that is, when nothing
    is left of it after trimming. *)
Theorem no_word_iff_blank (answerText : string) :
  wordCount answerText = 0%nat <-> trim answerText = "".
Proof. exact (wordCount_zero_iff answerText). Qed.

Lemma no_word_iff_blank_witness : wordCount "   " = 0%nat.
Proof.
  apply (proj2 (no_word_iff_blank "   ")). reflexivity.
Defined.

End ScoreAnswerFacts.

(* ================================================================== *)
(** * The handler of score-answer and the results page                 *)
(* ================================================================== *)

Section HandlerFacts.
Import JS.
Local Open Scope Q_scope.

Lemma num_succ (n : nat) : num (n + 1) == num n + 1.
Proof.
  unfold num. rewrite Nat2Z.inj_add, inject_Z_plus. reflexivity.
Qed.

(** A mean of values between two bounds lies between the bounds. *)
Lemma mean_bounds (lo hi total : Q) (n : nat) :
  (0 < n)%nat ->
  lo * num n <= total <= hi * num n ->
  lo <= total / num n <= hi.
Proof.
  intros Hn [L U]. pose proof (num_pos n Hn) as Hp. split.
  - apply Qle_shift_div_l; assumption.
  - apply Qle_shift_div_r; assumption.
Qed.

(** ** score-answer *)

Lemma score_between_2_and_10 (answerText : string) (kws : list string)
    (idealLength : Q) :
  2 <= score (scoreAnswer answerText kws idealLength) <= 10.
Proof.
  destruct (scoreAnswer_fields answerText kws idealLength) as (-> & _).
  pose proof (totalScore_bounds answerText kws idealLength).
  pose proof (round1_range 20 100 (totalScore answerText kws idealLength))
    as R.
  change (inject_Z 20) with 20 in R. change (inject_Z 100) with 100 in R.
  lra.
Qed.

Lemma scoreQuestion_cases (question_bank : string -> option ScoreHandler.BankRow)
    (st : ScoreHandler.Loop) (q : ScoreHandler.QuestionRow) :
  ScoreHandler.scoreQuestion question_bank st q = st
  \/ exists a rest,
       ScoreHandler.interview_answers q = a :: rest
       /\ trim (ScoreHandler.answerTextOf a) <> ""
       /\ ScoreHandler.scoreQuestion question_bank st q
          = let fb :=
              scoreAnswer (ScoreHandler.answerTextOf a)
                (ScoreHandler.expectedKeywordsOf
                   (question_bank (ScoreHandler.question_text q)))
                (inject_Z (ScoreHandler.idealLengthOf
                             (question_bank (ScoreHandler.question_text q))))
            in
            ScoreHandler.mkLoop
              (ScoreHandler.totalScore st + score fb)
              (ScoreHandler.answeredCount st + 1)
              (ScoreHandler.updates st ++ [(ScoreHandler.id a, fb)]).
Proof.
  unfold ScoreHandler.scoreQuestion.
  destruct (ScoreHandler.interview_answers q) as [|a rest]; [left; reflexivity|].
  cbv zeta.
  destruct (trim (ScoreHandler.answerTextOf a)) as [|c r] eqn:E.
  - left. reflexivity.
  - right. exists a, rest.
    split; [reflexivity|]. split; [rewrite E; discriminate | reflexivity].
Qed.

Lemma scoreQuestions_invariant
    (question_bank : string -> option ScoreHandler.BankRow)
    (questions : list ScoreHandler.QuestionRow) :
  forall st : ScoreHandler.Loop,
    2 * num (ScoreHandler.answeredCount st) <= ScoreHandler.totalScore st
      <= 10 * num (ScoreHandler.answeredCount st) ->
    List.length (ScoreHandler.updates st) = ScoreHandler.answeredCount st ->
    let st' := fold_left (ScoreHandler.scoreQuestion question_bank)
                         questions st in
    (2 * num (ScoreHandler.answeredCount st') <= ScoreHandler.totalScore st'
       <= 10 * num (ScoreHandler.answeredCount st'))
    /\ List.length (ScoreHandler.updates st')
       = ScoreHandler.answeredCount st'
    /\ (ScoreHandler.answeredCount st'
        <= ScoreHandler.answeredCount st + List.length questions)%nat.
Proof.
  induction questions as [|q qs IH]; intros st Hb Hl; cbn [fold_left].
  - cbv zeta. repeat split; try tauto; cbn [List.length]; lia.
  - destruct (scoreQuestion_cases question_bank st q) as [->|(a & rest & _ & _ & ->)].
    + destruct (IH st Hb Hl) as (B & L & C).
      cbv zeta. repeat split; try tauto. cbn [List.length]. lia.
    + cbv zeta.
      set (fb := scoreAnswer _ _ _).
      assert (Hfb : 2 <= score fb <= 10) by apply score_between_2_and_10.
      match goal with
      | |- context [fold_left _ qs ?s] => destruct (IH s) as (B & L & C)
      end.
      * cbn [ScoreHandler.totalScore ScoreHandler.answeredCount].
        pose proof (num_succ (ScoreHandler.answeredCount st)) as S1.
        lra.
      * cbn [ScoreHandler.updates ScoreHandler.answeredCount].
        rewrite length_app. cbn [List.length]. lia.
      * cbn [ScoreHandler.answeredCount] in C.
        repeat split; try tauto. cbn [List.length]. lia.
Qed.

Lemma sum_snoc (xs : list Q) (x : Q) :
  fold_right Qplus 0 (xs ++ [x]) == fold_right Qplus 0 xs + x.
Proof.
  induction xs as [|y xs IH]; cbn [app fold_right]; [ring|].
  rewrite IH. ring.
Qed.

(** The running total is the sum of the scores written so far. *)
Lemma scoreQuestions_total
    (question_bank : string -> option ScoreHandler.BankRow)
    (questions : list ScoreHandler.QuestionRow) :
  forall st : ScoreHandler.Loop,
    ScoreHandler.totalScore st
    == fold_right Qplus 0
         (map (fun u => score (snd u)) (ScoreHandler.updates st)) ->
    let st' := fold_left (ScoreHandler.scoreQuestion question_bank)
                         questions st in
    ScoreHandler.totalScore st'
    == fold_right Qplus 0
         (map (fun u => score (snd u)) (ScoreHandler.updates st')).
Proof.
  induction questions as [|q qs IH]; intros st Hst; cbn [fold_left];
    [exact Hst|].
  apply IH.
  destruct (scoreQuestion_cases question_bank st q)
    as [->|(a & rest & _ & _ & ->)]; [exact Hst|].
  cbv zeta. cbn [ScoreHandler.totalScore ScoreHandler.updates].
  rewrite map_app. cbn [map snd]. rewrite sum_snoc, Hst. reflexivity.
Qed.

(** The handler writes one feedback for each answer it counts and counts
    at most one answer for each question; its running total is the sum of
    the scores it wrote; and it reports as overall score 0 when it counted
    no answer and otherwise that sum divided by the number of feedbacks
    written, the mean of the scores, which lies between 2 and 10. *)
Theorem overall_score_of_interview
    (question_bank : string -> option ScoreHandler.BankRow)
    (questions : list ScoreHandler.QuestionRow) :
  let st := ScoreHandler.scoreQuestions question_bank questions in
  let written := map (fun u => score (snd u)) (ScoreHandler.updates st) in
  List.length (ScoreHandler.updates st) = ScoreHandler.answeredCount st
  /\ (ScoreHandler.answeredCount st <= List.length questions)%nat
  /\ ScoreHandler.totalScore st == fold_right Qplus 0 written
  /\ ((ScoreHandler.answeredCount st = 0%nat
       /\ ScoreHandler.overallScore st == 0)
      \/ ((0 < ScoreHandler.answeredCount st)%nat
          /\ ScoreHandler.overallScore st
             == fold_right Qplus 0 written / num (List.length written)
          /\ 2 <= ScoreHandler.overallScore st <= 10)).
Proof.
  cbv zeta. unfold ScoreHandler.scoreQuestions.
  pose proof (scoreQuestions_total question_bank questions
                (ScoreHandler.mkLoop 0 0 [])) as T.
  cbv zeta in T.
  assert (T0 : ScoreHandler.totalScore (ScoreHandler.mkLoop 0 0 [])
               == fold_right Qplus 0
                    (map (fun u => score (snd u))
                         (ScoreHandler.updates (ScoreHandler.mkLoop 0 0 []))))
    by reflexivity.
  specialize (T T0). clear T0.
  destruct (scoreQuestions_invariant question_bank questions
              (ScoreHandler.mkLoop 0 0 [])) as (B & L & C).
  - cbn [ScoreHandler.totalScore ScoreHandler.answeredCount].
    change (num 0) with 0. lra.
  - reflexivity.
  - cbv zeta in B, L, C. cbn [ScoreHandler.answeredCount Nat.add] in C.
    set (st := fold_left (ScoreHandler.scoreQuestion question_bank)
                         questions (ScoreHandler.mkLoop 0 0 [])) in *.
    split; [exact L|]. split; [exact C|]. split; [exact T|].
    unfold ScoreHandler.overallScore.
    destruct (Nat.ltb_spec 0 (ScoreHandler.answeredCount st)) as [Hn|Hn].
    + right. split; [exact Hn|]. split.
      * rewrite length_map, L.
        pose proof (num_pos _ Hn) as Hp.
        unfold Qdiv. apply Qmult_comp; [exact T | reflexivity].
      * apply mean_bounds; assumption.
    + left. split; [lia | reflexivity].
Qed.

Lemma idealLengthOf_nonzero (bankQuestion : option ScoreHandler.BankRow) :
  ScoreHandler.idealLengthOf bankQuestion <> 0%Z.
Proof.
  unfold ScoreHandler.idealLengthOf. destruct bankQuestion as [b|]; [|lia].
  destruct (Z.eqb_spec (ScoreHandler.ideal_answer_length b) 0); lia.
Qed.

Lemma scoreQuestions_updates
    (question_bank : string -> option ScoreHandler.BankRow)
    (P : string * Feedback -> Prop)
    (all : list ScoreHandler.QuestionRow) :
  (forall q a rest,
      In q all ->
      ScoreHandler.interview_answers q = a :: rest ->
      trim (ScoreHandler.answerTextOf a) <> "" ->
      P (ScoreHandler.id a,
         scoreAnswer (ScoreHandler.answerTextOf a)
           (ScoreHandler.expectedKeywordsOf
              (question_bank (ScoreHandler.question_text q)))
           (inject_Z (ScoreHandler.idealLengthOf
                        (question_bank (ScoreHandler.question_text q)))))) ->
  forall (questions : list ScoreHandler.QuestionRow) (st : ScoreHandler.Loop),
    incl questions all ->
    Forall P (ScoreHandler.updates st) ->
    Forall P (ScoreHandler.updates
                (fold_left (ScoreHandler.scoreQuestion question_bank)
                           questions st)).
Proof.
  intros HP. induction questions as [|q qs IH]; intros st Hincl Hst;
    cbn [fold_left]; [exact Hst|].
  apply IH; [intros x Hx; apply Hincl; right; exact Hx|].
  destruct (scoreQuestion_cases question_bank st q)
    as [->|(a & rest & Ha & Ht & ->)]; [exact Hst|].
  cbv zeta. cbn [ScoreHandler.updates].
  apply Forall_app. split; [exact Hst|].
  constructor; [|constructor].
  apply (HP q a rest); [apply Hincl; left; reflexivity | exact Ha | exact Ht].
Qed.

(** Every feedback the handler writes belongs to the first answer of one
    of the questions; that answer is not blank and so has at least one
    word; it was scored against the rubric of the question, with an ideal
    length that is never 0; and its score lies between 2 and 10. *)
Theorem only_answers_with_words_are_scored
    (question_bank : string -> option ScoreHandler.BankRow)
    (questions : list ScoreHandler.QuestionRow)
    (answerId : string) (fb : Feedback) :
  In (answerId, fb)
     (ScoreHandler.updates
        (ScoreHandler.scoreQuestions question_bank questions)) ->
  exists q a rest,
    In q questions
    /\ ScoreHandler.interview_answers q = a :: rest
    /\ answerId = ScoreHandler.id a
    /\ (1 <= wordCount (ScoreHandler.answerTextOf a))%nat
    /\ ScoreHandler.idealLengthOf
         (question_bank (ScoreHandler.question_text q)) <> 0%Z
    /\ fb = scoreAnswer (ScoreHandler.answerTextOf a)
              (ScoreHandler.expectedKeywordsOf
                 (question_bank (ScoreHandler.question_text q)))
              (inject_Z (ScoreHandler.idealLengthOf
                           (question_bank (ScoreHandler.question_text q))))
    /\ 2 <= score fb <= 10.
Proof.
  intro Hin.
  assert (F : Forall
    (fun x =>
       exists q a rest,
         In q questions
         /\ ScoreHandler.interview_answers q = a :: rest
         /\ fst x = ScoreHandler.id a
         /\ (1 <= wordCount (ScoreHandler.answerTextOf a))%nat
         /\ ScoreHandler.idealLengthOf
              (question_bank (ScoreHandler.question_text q)) <> 0%Z
         /\ snd x = scoreAnswer (ScoreHandler.answerTextOf a)
                      (ScoreHandler.expectedKeywordsOf
                         (question_bank (ScoreHandler.question_text q)))
                      (inject_Z (ScoreHandler.idealLengthOf
                                   (question_bank
                                      (ScoreHandler.question_text q))))
         /\ 2 <= score (snd x) <= 10)
    (ScoreHandler.updates
       (ScoreHandler.scoreQuestions question_bank questions))).
  { unfold ScoreHandler.scoreQuestions.
    apply (scoreQuestions_updates question_bank _ questions).
    - intros q a rest Hq Ha Ht. exists q, a, rest. cbn [fst snd].
      split; [exact Hq|]. split; [exact Ha|]. split; [reflexivity|].
      split.
      + destruct (wordCount (ScoreHandler.answerTextOf a)) eqn:E; [|lia].
        apply wordCount_zero_iff in E. contradiction.
      + split; [apply idealLengthOf_nonzero|].
        split; [reflexivity | apply score_between_2_and_10].
    - apply incl_refl.
    - constructor. }
  rewrite Forall_forall in F.
  destruct (F _ Hin) as (q & a & rest & H1 & H2 & H3 & H4 & H5 & H6 & H7).
  cbn [fst snd] in H3, H6, H7.
  exists q, a, rest. repeat split; try assumption; apply H7.
Qed.

Lemma only_answers_with_words_are_scored_witness :
  exists q a rest,
    In q [ScoreHandler.mkQuestionRow "What is a stack?"
            [ScoreHandler.mkAnswerRow "a1" (Some "A stack is LIFO.") None]]
    /\ ScoreHandler.interview_answers q = a :: rest
    /\ "a1" = ScoreHandler.id a
    /\ (1 <= wordCount (ScoreHandler.answerTextOf a))%nat
    /\ ScoreHandler.idealLengthOf None <> 0%Z
    /\ scoreAnswer "A stack is LIFO." [] 100
       = scoreAnswer (ScoreHandler.answerTextOf a)
           (ScoreHandler.expectedKeywordsOf None)
           (inject_Z (ScoreHandler.idealLengthOf None))
    /\ 2 <= score (scoreAnswer "A stack is LIFO." [] 100) <= 10.
Proof.
  apply (only_answers_with_words_are_scored
           (fun _ => None)
           [ScoreHandler.mkQuestionRow "What is a stack?"
              [ScoreHandler.mkAnswerRow "a1" (Some "A stack is LIFO."%string)
                                        None]]
           "a1" (scoreAnswer "A stack is LIFO." [] 100)).
  left. reflexivity.
Defined.

(** ** The results page *)

(** The colour and the label of a score agree: green goes with "Excellent"
    and "Very Good", yellow with "Good" and "Satisfactory", red with
    "Needs Improvement" and "Poor". *)
Theorem colour_agrees_with_label (score : Q) :
  (ResultsPage.getScoreColor score = "text-green-500"%string
   <-> ResultsPage.getScoreLabel score = "Excellent"%string
       \/ ResultsPage.getScoreLabel score = "Very Good"%string)
  /\ (ResultsPage.getScoreColor score = "text-yellow-500"%string
      <-> ResultsPage.getScoreLabel score = "Good"%string
          \/ ResultsPage.getScoreLabel score = "Satisfactory"%string)
  /\ (ResultsPage.getScoreColor score = "text-red-500"%string
      <-> ResultsPage.getScoreLabel score = "Needs Improvement"%string
          \/ ResultsPage.getScoreLabel score = "Poor"%string).
Proof.
  unfold ResultsPage.getScoreColor, ResultsPage.getScoreLabel.
  cmp_cases (geb score 9); cmp_cases (geb score 8);
    cmp_cases (geb score 7); cmp_cases (geb score 6);
    cmp_cases (geb score 5);
    try (exfalso; lra);
    repeat split; intros;
    repeat match goal with
           | H : _ \/ _ |- _ => destruct H
           | H : _ = _ |- _ => discriminate H
           end;
    try reflexivity;
    first [ left; reflexivity | right; reflexivity ].
Qed.

End HandlerFacts.

(* ================================================================== *)
(** * The choice of questions in start-interview                       *)
(* ================================================================== *)

Section StartInterviewFacts.
Import StartInterview.

(** The random sort rearranges the array it is given. *)
Variable shuffle : list BankQuestion -> list BankQuestion.
Hypothesis shuffle_permutes : forall l, Permutation (shuffle l) l.

Lemma combine_seq_fst {A : Type} (l : list A) :
  forall start, map fst (combine (seq start (List.length l)) l)
                = seq start (List.length l).
Proof.
  induction l as [|x l IH]; intro start; [reflexivity|].
  cbn [List.length seq combine map fst]. rewrite IH. reflexivity.
Qed.

Lemma combine_seq_snd {A : Type} (l : list A) :
  forall start, map snd (combine (seq start (List.length l)) l) = l.
Proof.
  induction l as [|x l IH]; intro start; [reflexivity|].
  cbn [List.length seq combine map snd]. rewrite IH. reflexivity.
Qed.

Lemma mapNumbered_length {A B : Type} (f : nat -> A -> B) (l : list A) :
  List.length (mapNumbered f l) = List.length l.
Proof.
  unfold mapNumbered. rewrite length_map, length_combine, length_seq.
  apply Nat.min_id.
Qed.

Lemma mapNumbered_map {A B C : Type} (f : nat -> A -> B) (g : B -> C)
    (l : list A) :
  map g (mapNumbered f l) = mapNumbered (fun n x => g (f n x)) l.
Proof. unfold mapNumbered. apply map_map. Qed.

Lemma mapNumbered_first {A : Type} (l : list A) :
  mapNumbered (fun n _ => n) l = seq 1 (List.length l).
Proof. unfold mapNumbered. apply (combine_seq_fst l 1). Qed.

Lemma mapNumbered_second {A B : Type} (h : A -> B) (l : list A) :
  mapNumbered (fun _ x => h x) l = map h l.
Proof.
  unfold mapNumbered.
  rewrite <- (combine_seq_snd l 1) at 3. rewrite map_map. reflexivity.
Qed.

Lemma firstn_nil_inv {A : Type} (n : nat) (l : list A) :
  firstn (S n) l = [] -> l = [].
Proof. destruct l; [reflexivity | discriminate]. Qed.

Lemma firstn_incl {A : Type} (n : nat) (l : list A) (x : A) :
  In x (firstn n l) -> In x l.
Proof.
  intro H. rewrite <- (firstn_skipn n l). apply in_or_app. left. exact H.
Qed.

Lemma firstn_NoDup {A : Type} (n : nat) (l : list A) :
  NoDup l -> NoDup (firstn n l).
Proof.
  intro H. rewrite <- (firstn_skipn n l) in H.
  apply NoDup_app_remove_r in H. exact H.
Qed.

Lemma arrayIncludes_iff (xs : list string) (x : string) :
  arrayIncludes xs x = true <-> In x xs.
Proof.
  unfold arrayIncludes. rewrite existsb_exists. split.
  - intros (y & Hy & E). apply String.eqb_eq in E. subst. exact Hy.
  - intro H. exists x. split; [exact H | apply String.eqb_refl].
Qed.

(** Keeping some of the questions keeps their ids distinct. *)
Lemma distinct_ids_filter (keep : BankQuestion -> bool)
    (qs : list BankQuestion) :
  NoDup (map id qs) -> NoDup (map id (filter keep qs)).
Proof.
  intro Hqs. induction qs as [|q qs IH]; cbn [filter map]; [constructor|].
  cbn [map] in Hqs. apply NoDup_cons_iff in Hqs. destruct Hqs as [Hq Hrest].
  specialize (IH Hrest).
  destruct (keep q); [|exact IH].
  cbn [map]. apply NoDup_cons; [|exact IH].
  intro Hin. apply Hq. apply in_map_iff in Hin.
  destruct Hin as (q' & Eid & Hq'). apply filter_In in Hq'.
  apply in_map_iff. exists q'. split; [exact Eid | apply Hq'].
Qed.

(** The questions the handler draws from, and the five it takes, when the
    query of the questions succeeds. *)
Lemma startInterview_cases (insertError : bool)
    (bank : list BankQuestion) (row : Progress)
    (forRole forDifficulty interviewId : string) :
  let used := used_question_ids row in
  let all := allQuestions bank forRole forDifficulty in
  let unused := filter (fun q => negb (arrayIncludes used (id q))) all in
  let pool := if List.length unused <? 5 then all else unused in
  let rowAfterReset :=
    if List.length unused <? 5
    then mkProgress
           (filter (fun i => negb (arrayIncludes (map id all) i)) used)
           (total_interviews row)
    else row in
  let selected := firstn 5 (shuffle pool) in
  let out := startInterview shuffle false insertError bank row
                            forRole forDifficulty interviewId in
  (selected = [] /\ all = []
   /\ out = mkOutcome NoQuestionsAvailable row [])
  \/ (selected <> []
      /\ all <> []
      /\ out = if insertError
               then mkOutcome ServerError rowAfterReset []
               else mkOutcome
                      (Success
                         (mapNumbered
                            (fun n q =>
                               mkSelected n (question_text q) (id q))
                            selected))
                      (mkProgress (used ++ map id selected)
                                  (total_interviews row + 1))
                      (mapNumbered
                         (fun n q =>
                            mkInterviewQuestion interviewId n
                                                (question_text q))
                         selected)).
Proof.
  cbv zeta. unfold startInterview. cbv zeta.
  set (all := allQuestions bank forRole forDifficulty).
  set (unused := filter _ all).
  set (pool := if List.length unused <? 5 then all else unused).
  destruct (firstn 5 (shuffle pool)) as [|q sel] eqn:E.
  - left. apply firstn_nil_inv in E.
    assert (Hpool : pool = []).
    { apply Permutation_nil. rewrite <- E. apply shuffle_permutes. }
    assert (Hall : all = []).
    { unfold pool in Hpool.
      destruct (Nat.ltb_spec (List.length unused) 5) as [_|H5];
        [exact Hpool|].
      rewrite Hpool in H5. cbn in H5. lia. }
    split; [reflexivity|]. split; [exact Hall|].
    assert (Hu : unused = []) by (unfold unused; rewrite Hall; reflexivity).
    rewrite Hu. cbn [List.length Nat.ltb Nat.leb].
    rewrite Hall. cbn [map].
    f_equal. destruct row as [used total]. cbn [used_question_ids total_interviews].
    f_equal. apply forallb_filter_id. apply forallb_forall. reflexivity.
  - right. split; [discriminate|]. split; [|reflexivity].
    intro Hall.
    assert (Hpool : pool = []).
    { unfold pool, unused. rewrite Hall. reflexivity.  }
    rewrite Hpool in E.
    pose proof (Permutation_nil (Permutation_sym (shuffle_permutes []))) as N.
    rewrite N in E. discriminate E.
Qed.

Lemma startInterview_query_error (insertError : bool)
    (bank : list BankQuestion) (row : Progress)
    (forRole forDifficulty interviewId : string) :
  startInterview shuffle true insertError bank row forRole forDifficulty
                 interviewId
  = mkOutcome ServerError row [].
Proof. reflexivity. Qed.

(** When the query of the questions fails the handler answers with a
    server error.  When it succeeds, the handler answers "No questions
    available" exactly when the bank has no question for the role and the
    difficulty, and with a server error exactly when there are such
    questions and the insert fails.  With either answer nothing is
    inserted, and after a failed query or "No questions available" the
    progress row is as it was. *)
Theorem no_questions_iff_none_in_bank
    (questionsError insertError : bool)
    (bank : list BankQuestion) (row : Progress)
    (forRole forDifficulty interviewId : string) :
  let out := startInterview shuffle questionsError insertError bank row
                            forRole forDifficulty interviewId in
  (response out = NoQuestionsAvailable
   <-> questionsError = false
       /\ allQuestions bank forRole forDifficulty = [])
  /\ (response out = ServerError
      <-> questionsError = true
          \/ (allQuestions bank forRole forDifficulty <> []
              /\ insertError = true))
  /\ (response out = NoQuestionsAvailable ->
      progress out = row /\ inserted out = [])
  /\ (questionsError = true -> progress out = row /\ inserted out = [])
  /\ (response out = ServerError -> inserted out = []).
Proof.
  cbv zeta. destruct questionsError.
  - rewrite startInterview_query_error. cbn [response progress inserted].
    repeat split; try discriminate; try tauto;
      intros [H _]; discriminate H.
  - destruct (startInterview_cases insertError bank row forRole forDifficulty
                                   interviewId)
      as [(_ & Hall & ->)|(_ & Hall & ->)].
    + cbn [response progress inserted].
      repeat split; try discriminate; try tauto.
      intros [H|[H _]]; [discriminate H | contradiction].
    + destruct insertError; cbn [response progress inserted];
        repeat split; try discriminate; try tauto;
        try (intros [_ H]; contradiction);
        try (intros [H|[_ H]]; discriminate H).
Qed.

(** A successful start returns between one and five questions, numbered
    1, 2, ... in order, each a question of the bank with the role and the
    difficulty asked for; it inserts exactly these questions for the
    interview, appends their ids to the ids recorded before (none of which
    is dropped, also when the handler had started over with all
    questions), and adds 1 to the number of interviews. *)
Theorem successful_start
    (questionsError insertError : bool)
    (bank : list BankQuestion) (row : Progress)
    (forRole forDifficulty interviewId : string)
    (questions : list Selected) :
  let out := startInterview shuffle questionsError insertError bank row
                            forRole forDifficulty interviewId in
  response out = Success questions ->
  (1 <= List.length questions <= 5)%nat
  /\ map number questions = seq 1 (List.length questions)
  /\ (forall s, In s questions ->
        exists q, In q bank
                  /\ role q = forRole /\ difficulty q = forDifficulty
                  /\ question s = question_text q
                  /\ questionBankId s = id q)
  /\ inserted out
     = map (fun s => mkInterviewQuestion interviewId (number s) (question s))
           questions
  /\ used_question_ids (progress out)
     = (used_question_ids row ++ map questionBankId questions)%list
  /\ total_interviews (progress out) = (total_interviews row + 1)%Z.
Proof.
  cbv zeta.
  destruct questionsError;
    [rewrite startInterview_query_error; discriminate|].
  destruct (startInterview_cases insertError bank row forRole forDifficulty
                                 interviewId)
    as [(_ & _ & ->)|(Hsel & _ & ->)]; [discriminate|].
  destruct insertError; [discriminate|].
  cbn [response progress inserted].
  set (all := allQuestions bank forRole forDifficulty) in *.
  set (unused := filter _ all) in *.
  set (pool := if List.length unused <? 5 then all else unused) in *.
  set (selected := firstn 5 (shuffle pool)) in *.
  intro H. injection H as <-.
  assert (Hpool : forall q, In q selected -> In q all).
  { intros q Hq. apply firstn_incl in Hq.
    apply (Permutation_in _ (shuffle_permutes pool)) in Hq.
    unfold pool in Hq. destruct (List.length unused <? 5); [exact Hq|].
    unfold unused in Hq. apply filter_In in Hq. tauto. }
  rewrite mapNumbered_length.
  split.
  - split.
    + destruct selected; [congruence | cbn [List.length]; lia].
    + apply firstn_le_length.
  - split.
    { rewrite mapNumbered_map. cbn [number]. apply mapNumbered_first. }
    split.
    { intros s Hs. unfold mapNumbered in Hs. apply in_map_iff in Hs.
      destruct Hs as ([n q] & <- & Hq). apply in_combine_r in Hq.
      cbn [fst snd question questionBankId].
      exists q. apply Hpool in Hq. unfold all, allQuestions in Hq.
      apply filter_In in Hq. destruct Hq as [Hb Hq].
      apply andb_true_iff in Hq. destruct Hq as [Hr Hd].
      apply String.eqb_eq in Hr. apply String.eqb_eq in Hd.
      repeat split; assumption || reflexivity. }
    split.
    { rewrite mapNumbered_map. reflexivity. }
    split.
    { cbn [used_question_ids]. f_equal.
      rewrite mapNumbered_map. cbn [questionBankId].
      symmetry. apply mapNumbered_second. }
    reflexivity.
Qed.

(** While at least five questions for the role and the difficulty have
    not been used, and the ids of the bank are distinct: when neither the
    query nor the insert fails, the handler returns exactly five
    questions, different from one another and none of them used before;
    when one of them fails, it answers with a server error, inserts
    nothing and leaves the progress row as it was. *)
Theorem five_fresh_questions
    (questionsError insertError : bool)
    (bank : list BankQuestion) (row : Progress)
    (forRole forDifficulty interviewId : string) :
  NoDup (map id bank) ->
  (5 <= List.length
          (filter (fun q => negb (arrayIncludes (used_question_ids row)
                                                (id q)))
                  (allQuestions bank forRole forDifficulty)))%nat ->
  let out := startInterview shuffle questionsError insertError bank row
                            forRole forDifficulty interviewId in
  (questionsError = false -> insertError = false ->
   exists questions,
     response out = Success questions
     /\ List.length questions = 5%nat
     /\ NoDup (map questionBankId questions)
     /\ forall s, In s questions ->
                  ~ In (questionBankId s) (used_question_ids row))
  /\ (questionsError = true \/ insertError = true ->
      out = mkOutcome ServerError row []).
Proof.
  intros Hids H5. cbv zeta.
  destruct questionsError.
  { rewrite startInterview_query_error.
    split; [discriminate | reflexivity]. }
  pose proof (startInterview_cases insertError bank row forRole forDifficulty
                                   interviewId)
    as Hc. cbv zeta in Hc.
  set (all := allQuestions bank forRole forDifficulty) in *.
  set (unused := filter (fun q => negb (arrayIncludes (used_question_ids row)
                                                      (id q))) all) in *.
  assert (Hfive : (List.length unused <? 5) = false)
    by (apply Nat.ltb_ge; exact H5).
  rewrite Hfive in Hc.
  set (selected := firstn 5 (shuffle unused)) in *.
  assert (Hlen : List.length selected = 5%nat).
  { unfold selected. rewrite length_firstn.
    rewrite (Permutation_length (shuffle_permutes unused)). lia. }
  destruct Hc as [(Hnil & _)|(_ & _ & ->)].
  { rewrite Hnil in Hlen. discriminate Hlen. }
  destruct insertError.
  { split; [intros _ H; discriminate H | reflexivity]. }
  split; [|intros [H|H]; discriminate H].
  intros _ _.
  eexists. split; [reflexivity|].
  rewrite mapNumbered_length. split; [exact Hlen|].
  rewrite mapNumbered_map. cbn [questionBankId].
  rewrite mapNumbered_second. split.
  - unfold selected. rewrite <- firstn_map. apply firstn_NoDup.
    apply (Permutation_NoDup
             (Permutation_sym (Permutation_map id (shuffle_permutes unused)))).
    unfold unused, all, allQuestions.
    apply distinct_ids_filter, distinct_ids_filter, Hids.
  - intros s Hs. unfold mapNumbered in Hs. apply in_map_iff in Hs.
    destruct Hs as ([n q] & <- & Hq). apply in_combine_r in Hq.
    cbn [fst snd questionBankId].
    apply firstn_incl in Hq.
    apply (Permutation_in _ (shuffle_permutes unused)) in Hq.
    unfold unused in Hq. apply filter_In in Hq. destruct Hq as [_ Hq].
    apply negb_true_iff in Hq. intro Hin.
    apply arrayIncludes_iff in Hin. congruence.
Qed.

End StartInterviewFacts.

Lemma reversed_permutes (l : list StartInterview.BankQuestion) :
  Permutation (StartScenario.reversed l) l.
Proof. apply Permutation_sym, Permutation_rev. Qed.

Lemma no_questions_iff_none_in_bank_witness :
  StartInterview.progress
    (StartInterview.startInterview StartScenario.reversed false false
       StartScenario.bank StartScenario.row "cloud_engineer" "hard" "i1")
  = StartScenario.row.
Proof.
  apply (proj1 (proj2 (proj2 (no_questions_iff_none_in_bank
                  StartScenario.reversed reversed_permutes false false
                  StartScenario.bank StartScenario.row
                  "cloud_engineer" "hard" "i1")))).
  reflexivity.
Defined.

Lemma successful_start_witness :
  StartInterview.used_question_ids
    (StartInterview.progress
       (StartInterview.startInterview StartScenario.reversed false false
          StartScenario.bank StartScenario.row "data_engineer" "easy" "i1"))
  = ["q1"; "d1"; "d1"].
Proof.
  apply (successful_start StartScenario.reversed reversed_permutes
           false false StartScenario.bank StartScenario.row
           "data_engineer" "easy" "i1"
           [StartInterview.mkSelected 1 "What is ETL?" "d1"]).
  reflexivity.
Defined.

Lemma five_fresh_questions_witness :
  exists questions,
    StartInterview.response
      (StartInterview.startInterview StartScenario.reversed false false
         StartScenario.bank StartScenario.row "sde" "easy" "i1")
    = StartInterview.Success questions
    /\ List.length questions = 5%nat
    /\ NoDup (map StartInterview.questionBankId questions)
    /\ forall s, In s questions ->
                 ~ In (StartInterview.questionBankId s)
                      (StartInterview.used_question_ids StartScenario.row).
Proof.
  apply (proj1 (five_fresh_questions StartScenario.reversed reversed_permutes
                  false false
                  StartScenario.bank StartScenario.row "sde" "easy" "i1"
                  ltac:(repeat constructor; cbn [In]; intuition discriminate)
                  ltac:(vm_compute; lia))); reflexivity.
Defined.

Lemma colour_agrees_with_label_witness :
  ResultsPage.getScoreColor 7.6 = "text-yellow-500".
Proof.
  apply (proj2 (proj1 (proj2 (colour_agrees_with_label 7.6)))).
  left. reflexivity.
Defined.


(* ================================================================== *)
(** * Further properties of the filler count and the voice analytics   *)
(* ================================================================== *)

Section FillerFacts.
Import JS.
Local Open Scope Q_scope.

Lemma splitFrom_length_pos (sep : string) (s : string) :
  forall (skip : nat) (cur : string),
    (1 <= List.length (splitFrom sep skip cur s))%nat.
Proof.
  induction s as [|c s IH]; intros skip cur; cbn [splitFrom].
  - cbn. lia.
  - destruct skip as [|k]; [|apply IH].
    destruct (startsWith (String c s) sep); [cbn [List.length]; lia | apply IH].
Qed.

(** A split at a separator has one fragment when the separator does not
    occur, and more when it does. *)
Lemma splitFrom_occurs (sep : string) (s : string) :
  sep <> "" ->
  forall cur : string,
    (includes s sep = false ->
     List.length (splitFrom sep 0 cur s) = 1%nat)
    /\ (includes s sep = true ->
        (2 <= List.length (splitFrom sep 0 cur s))%nat).
Proof.
  intro Hsep. induction s as [|c s IH]; intro cur.
  - cbn [includes splitFrom]. destruct sep; [congruence|].
    cbn. split; [reflexivity | discriminate].
  - cbn [includes splitFrom].
    destruct (startsWith (String c s) sep) eqn:E.
    + cbn [orb]. split; [discriminate|]. intros _. cbn [List.length].
      pose proof (splitFrom_length_pos sep s (String.length sep - 1) "").
      lia.
    + cbn [orb]. apply IH.
Qed.

Lemma occurrences_zero_iff (fw s : string) :
  fw <> "" -> (occurrences fw s = 0%nat <-> includes s fw = false).
Proof.
  intro Hfw. unfold occurrences, split.
  destruct fw as [|a fw]; [congruence|].
  destruct (splitFrom_occurs (String a fw) s Hfw "") as [H0 H1].
  destruct (includes s (String a fw)).
  - specialize (H1 eq_refl). split; [lia | discriminate].
  - rewrite (H0 eq_refl). split; reflexivity.
Qed.

Lemma fillerCount_zero_iff (answerText : string) :
  fillerCount answerText = 0%nat
  <-> forall fw, In fw fillerWords ->
                 includes (answer answerText) fw = false.
Proof.
  unfold fillerCount, fillerWords. cbn [fold_left].
  split.
  - intros H fw Hin. cbn [In] in Hin.
    repeat (destruct Hin as [<-|Hin];
            [apply occurrences_zero_iff; [discriminate | lia]|]).
    destruct Hin.
  - intro H.
    repeat match goal with
           | |- context [occurrences ?fw ?s] =>
               let E := fresh "E" in
               assert (E : occurrences fw s = 0%nat)
                 by (apply occurrences_zero_iff;
                     [discriminate | apply H; cbn [In]; tauto]);
               rewrite E; clear E
           end.
    reflexivity.
Qed.

(** Fillers are counted as pieces of text, not as words: the filler count
    is 0 exactly when none of the six fillers occurs anywhere in the
    lower-cased answer, inside a longer word included; an answer in which
    one occurs gets no bonus for being free of fillers, so its clarity is
    at most 9. *)
Theorem fillers_are_substrings (answerText : string) :
  (fillerCount answerText = 0%nat
   <-> forall fw, In fw fillerWords ->
                  includes (answer answerText) fw = false)
  /\ (forall fw, In fw fillerWords ->
                 includes (answer answerText) fw = true ->
                 (1 <= fillerCount answerText)%nat
                 /\ clarityScore answerText <= 9).
Proof.
  split; [apply fillerCount_zero_iff|].
  intros fw Hin Hocc.
  assert (Hpos : (1 <= fillerCount answerText)%nat).
  { destruct (fillerCount answerText) eqn:E; [|lia].
    rewrite fillerCount_zero_iff in E. rewrite (E fw Hin) in Hocc.
    discriminate Hocc. }
  split; [exact Hpos|].
  unfold clarityScore, clarityFrom, fillerStep, sentenceLengthStep.
  destruct (Nat.eqb_spec (fillerCount answerText) 0); [lia|].
  destruct (geb _ 10 && leb _ 30); [|destruct (ltb _ 10)];
    destruct (5 <? fillerCount answerText)%nat;
    minmax_cases; lra.
Qed.

Lemma fillers_are_substrings_witness :
  (1 <= fillerCount "A number is summed.")%nat
  /\ clarityScore "A number is summed." <= 9.
Proof.
  apply (proj2 (fillers_are_substrings "A number is summed.") "um").
  - left. reflexivity.
  - reflexivity.
Defined.

(** ** The voice analytics *)

Lemma Qabs_cases (x : Q) :
  (0 <= x /\ Qabs x == x) \/ (x <= 0 /\ Qabs x == - x).
Proof.
  destruct (Qlt_le_dec x 0) as [H|H].
  - right. split; [lra | apply Qabs_neg; lra].
  - left. split; [exact H | apply Qabs_pos, H].
Qed.

Lemma num_double (n : nat) : num (n * 2) == 2 * num n.
Proof.
  unfold num. rewrite Nat2Z.inj_mul, inject_Z_mult. cbn. ring.
Qed.

Lemma num_ge (k n : nat) : (k <= n)%nat -> num k <= num n.
Proof. apply num_le. Qed.

(** The estimated rate is an even number of words per minute, and the
    rate score is centred on 135: it never exceeds 99.5, it is 99.5
    exactly for transcripts of 67 or 68 words, and it is 0 exactly for
    transcripts of 168 words or more. *)
Theorem rate_score_peak (transcript : string) :
  AnalyzeAnswers.rateScore transcript <= 99.5
  /\ (AnalyzeAnswers.rateScore transcript == 99.5
      <-> AnalyzeAnswers.wordCount transcript = 67%nat
          \/ AnalyzeAnswers.wordCount transcript = 68%nat)
  /\ (AnalyzeAnswers.rateScore transcript == 0
      <-> (168 <= AnalyzeAnswers.wordCount transcript)%nat).
Proof.
  unfold AnalyzeAnswers.rateScore, AnalyzeAnswers.wordsPerMinute.
  set (n := AnalyzeAnswers.wordCount transcript).
  pose proof (num_double n) as Hd. pose proof (num_nonneg n) as H0.
  set (w := num (n * 2)) in *.
  destruct (Qabs_cases (w - 135)) as [[S A]|[S A]];
    set (a := Qabs (w - 135)) in *; clearbody a;
    assert (C : (n <= 66 \/ n = 67 \/ n = 68 \/ (69 <= n <= 167)
                 \/ 168 <= n)%nat) by lia;
    destruct C as [C|[C|[C|[C|C]]]];
    try (pose proof (num_le n 66 C) as C1; change (num 66) with 66 in C1);
    try (assert (C1 : num n == 67) by (rewrite C; reflexivity));
    try (assert (C1 : num n == 68) by (rewrite C; reflexivity));
    try (pose proof (num_ge 69 n (proj1 C)) as C1;
         pose proof (num_le n 167 (proj2 C)) as C2;
         change (num 69) with 69 in C1; change (num 167) with 167 in C2);
    try (pose proof (num_ge 168 n C) as C1; change (num 168) with 168 in C1);
    try (exfalso; lra);
    minmax_cases;
    (split; [lra|]);
    (split; split; intro Hside;
     try lra; try lia; try (exfalso; lra); try (exfalso; lia);
     try (destruct Hside; exfalso; lia)).
Qed.

Lemma rate_score_peak_witness :
  AnalyzeAnswers.rateScore Scenario.transcript67 == 99.5.
Proof.
  apply (proj2 (proj1 (proj2 (rate_score_peak Scenario.transcript67)))).
  left. reflexivity.
Defined.

Lemma num_le_iff (m n : nat) : num m <= num n <-> (m <= n)%nat.
Proof. unfold num. rewrite <- Zle_Qle. lia. Qed.

Lemma num_times5 (n : nat) : num (5 * n) == 5 * num n.
Proof.
  unfold num. rewrite Nat2Z.inj_mul, inject_Z_mult. reflexivity.
Qed.

(** No more fillers than words are counted, so the filler ratio lies
    between 0 and 1; and the filler score is 0 exactly when the transcript
    has words and at least every fifth of them is a filler. *)
Theorem filler_score_zero (transcript : string) :
  (AnalyzeAnswers.fillerWordCount transcript
   <= AnalyzeAnswers.wordCount transcript)%nat
  /\ 0 <= AnalyzeAnswers.fillerRatio transcript <= 1
  /\ (AnalyzeAnswers.fillerScore transcript == 0
      <-> (0 < AnalyzeAnswers.wordCount transcript
           <= 5 * AnalyzeAnswers.fillerWordCount transcript)%nat).
Proof.
  assert (Hle : (AnalyzeAnswers.fillerWordCount transcript
                 <= AnalyzeAnswers.wordCount transcript)%nat)
    by apply filter_length_le.
  unfold AnalyzeAnswers.fillerScore, AnalyzeAnswers.fillerRatio.
  set (fc := AnalyzeAnswers.fillerWordCount transcript) in *.
  set (wc := AnalyzeAnswers.wordCount transcript) in *.
  assert (Hd : 0 < num (Nat.max wc 1)) by (apply num_pos; lia).
  pose proof (num_nonneg fc) as Hfc.
  assert (Hfd : num fc <= num (Nat.max wc 1)) by (apply num_le; lia).
  assert (R0 : 0 <= num fc / num (Nat.max wc 1))
    by (apply Qle_shift_div_l; lra).
  assert (R1 : num fc / num (Nat.max wc 1) <= 1)
    by (apply Qle_shift_div_r; lra).
  split; [exact Hle|]. split; [split; assumption|].
  destruct (Qlt_le_dec (num fc) (0.2 * num (Nat.max wc 1))) as [Hlt|Hge].
  - assert (R : num fc / num (Nat.max wc 1) < 0.2)
      by (apply Qlt_shift_div_r; assumption).
    assert (N : ~ (0 < wc <= 5 * fc)%nat).
    { intros [Hw H5]. apply num_le_iff in H5. rewrite num_times5 in H5.
      replace (Nat.max wc 1) with wc in Hlt by lia. lra. }
    minmax_cases; split; intro Hside; try lra; try contradiction;
      exfalso; lra.
  - assert (R : 0.2 <= num fc / num (Nat.max wc 1))
      by (apply Qle_shift_div_l; assumption).
    assert (P : (0 < wc <= 5 * fc)%nat).
    { assert (Hw : (0 < wc)%nat).
      { destruct wc; [|lia]. exfalso.
        assert (fc = 0%nat) by lia.
        replace fc with 0%nat in Hge by lia.
        change (num (Nat.max 0 1)) with 1 in Hge.
        change (num 0) with 0 in Hge. lra. }
      split; [exact Hw|]. apply num_le_iff. rewrite num_times5.
      replace (Nat.max wc 1) with wc in Hge by lia. lra. }
    minmax_cases; split; intro Hside; try lra; try exact P;
      exfalso; lra.
Qed.

Lemma filler_score_zero_witness :
  AnalyzeAnswers.fillerScore "um so like well it works" == 0.
Proof.
  apply (proj2 (proj2 (proj2 (filler_score_zero "um so like well it works")))).
  vm_compute. split; lia.
Defined.

End FillerFacts.

